(** * WeBAD-ts: voice-activity detection

    A shallow embedding of the volume meter ([volume-meter.ts]) and of the
    speech classifier ([audioDetection.ts]), with the properties of their
    specification.

    JavaScript numbers are IEEE 754 binary64 values: they are modelled by
    Rocq's primitive floats, whose operations are the correctly rounded IEEE
    ones, with a single NaN.  Objects that are shared and mutated (the
    [detail] payload of the events of a tick) live in a store and are
    referred to by location. *)

From Stdlib Require Import Floats ZArith Uint63 Bool String Lia.
From stdpp Require Import base list.

Set Default Proof Using "Type".
Set Warnings "-inexact-float".

(* ===================================================================== *)
(** * JavaScript numbers *)
(* ===================================================================== *)

Module JS.

Local Open Scope float_scope.

(** [a === b] on numbers: NaN differs from itself, both zeros are equal. *)
Definition strict_eq (a b : float) : bool := a =? b.

(** [a < b], [a > b], [a >= b]: false as soon as one side is NaN. *)
Definition lt (a b : float) : bool := a <? b.
Definition gt (a b : float) : bool := b <? a.
Definition ge (a b : float) : bool := b <=? a.

(** [++x] as an expression: the incremented value. *)
Definition incr (x : float) : float := x + 1.

(** A length (of an array or typed array) read as a number.  Lengths are
    below 2^53, where the conversion is exact. *)
Definition of_length (n : nat) : float := of_uint63 (Uint63.of_Z (Z.of_nat n)).

(** [Math.max(a, b)]: NaN if either argument is NaN; [+0] is larger than
    [-0]. *)
Definition Math_max (a b : float) : float :=
  if is_nan a || is_nan b then nan
  else if a <? b then b
  else if b <? a then a
  else match classify a with
       | NZero => b
       | _ => a
       end.

Definition Math_abs (x : float) : float := PrimFloat.abs x.
Definition Math_sqrt (x : float) : float := PrimFloat.sqrt x.

(** [Math.round(x)]: the integer closest to [x], ties towards +infinity;
    NaN, the infinities, the zeros and the integers are returned as they
    are, and a negative [x] that rounds to zero gives [-0].  The value of
    a finite [x] is [(-1)^s * m * 2^e]; for [e < 0] the result is
    [floor (x + 1/2)], computed on integers. *)
Definition Math_round (x : float) : float :=
  match Prim2SF x with
  | S754_finite s m e =>
      if (0 <=? e)%Z then x
      else
        let k := (- e)%Z in
        let sm := if s then Z.neg m else Z.pos m in
        let q := ((2 * sm + 2 ^ k) / 2 ^ (k + 1))%Z in
        match q with
        | Z0 => if s then neg_zero else zero
        | Z.pos p => of_uint63 (Uint63.of_Z (Z.pos p))
        | Z.neg p => - of_uint63 (Uint63.of_Z (Z.pos p))
        end
  | _ => x
  end.

(** How the evaluation of an expression such as [new C(...)] ends. *)
Inductive completion (A : Type) : Type :=
| Normal (value : A)
| Throw (error : string).
Arguments Normal {A} value.
Arguments Throw {A} error.

End JS.

(* ===================================================================== *)
(** * IEEE 754 values *)
(* ===================================================================== *)

(** The operations on primitive floats are specified on [spec_float], the
    values of the format as sign, mantissa and exponent.  These are the
    classes of values that the properties of the meter need. *)
Module IEEE.

(** A number that is not negative: a zero of either sign, a positive finite
    number or +infinity. *)
Definition SFnonneg (x : spec_float) : bool :=
  match x with
  | S754_zero _ => true
  | S754_infinity s => negb s
  | S754_finite s _ _ => negb s
  | S754_nan => false
  end.

(** A positive finite number. *)
Definition SFpositive (x : spec_float) : bool :=
  match x with
  | S754_finite s _ _ => negb s
  | _ => false
  end.

(** NaN. *)
Definition SFis_nan (x : spec_float) : bool :=
  match x with S754_nan => true | _ => false end.

(** The result has the sign [sx] (and is not NaN). *)
Definition SFsigned (sx : bool) (x : spec_float) : Prop :=
  match x with
  | S754_zero s | S754_infinity s | S754_finite s _ _ => s = sx
  | S754_nan => False
  end.

End IEEE.

(* ===================================================================== *)
(** * volume-meter.ts *)
(* ===================================================================== *)

Module VolumeMeter.

Import JS.
Local Open Scope float_scope.

(** The fields of the class that carry data.  [processor] and
    [audioContext] are handles of the audio platform. *)
Record VolumeMeter := {
  clipLevel : float;
  averaging : float;
  clipLag : float;
  volume : float;
  lastClip : float;
  clipping : bool
}.

Definition set_volume (v : float) (m : VolumeMeter) : VolumeMeter :=
  {| clipLevel := clipLevel m; averaging := averaging m; clipLag := clipLag m;
     volume := v; lastClip := lastClip m; clipping := clipping m |}.

Definition set_clip (c : bool) (t : float) (m : VolumeMeter) : VolumeMeter :=
  {| clipLevel := clipLevel m; averaging := averaging m; clipLag := clipLag m;
     volume := volume m; lastClip := t; clipping := c |}.

Definition set_clipping (c : bool) (m : VolumeMeter) : VolumeMeter :=
  {| clipLevel := clipLevel m; averaging := averaging m; clipLag := clipLag m;
     volume := volume m; lastClip := lastClip m; clipping := c |}.

(** [constructor(audioContext, clipLevel = 0.98, averaging = 0.95,
    clipLag = 750)]. *)
Definition constructor (clipLevel averaging clipLag : option float) : VolumeMeter :=
  {| clipLevel := default 0.98 clipLevel;
     averaging := default 0.95 averaging;
     clipLag := default 750 clipLag;
     volume := 0; lastClip := 0; clipping := false |}.

(** The [for] loop of [volumeAudioProcess], from index [i] on: [buf] is
    what remains of the channel data, [performance_now k] is what
    [self.performance.now()] returns when read at sample [k]. *)
Fixpoint sum_squares (performance_now : nat -> float) (i : nat) (buf : list float)
    (sum : float) (m : VolumeMeter) : float * VolumeMeter :=
  match buf with
  | [] => (sum, m)
  | x :: rest =>
      let m' := if ge (Math_abs x) (clipLevel m)
                then set_clip true (performance_now i) m
                else m in
      sum_squares performance_now (S i) rest (sum + x * x) m'
  end.

(** The root mean square that [volumeAudioProcess] computes for a block. *)
Definition rms_of (sum : float) (bufLength : nat) : float :=
  Math_sqrt (sum / of_length bufLength).

Definition volumeAudioProcess (buf : list float) (performance_now : nat -> float)
    (m : VolumeMeter) : VolumeMeter :=
  let bufLength := length buf in
  let '(sum, m1) := sum_squares performance_now 0 buf 0 m in
  let rms := rms_of sum bufLength in
  set_volume (Math_max rms (volume m1 * averaging m1)) m1.

(** [checkClipping()], with the reading of [window.performance.now()]. *)
Definition checkClipping (performance_now : float) (m : VolumeMeter)
    : bool * VolumeMeter :=
  if negb (clipping m) then (false, m)
  else
    let m' := if lt (lastClip m + clipLag m) performance_now
              then set_clipping false m else m in
    (clipping m', m').

End VolumeMeter.

(* ===================================================================== *)
(** * events.ts and the event target *)
(* ===================================================================== *)

Module Events.

Local Open Scope string_scope.

(** The [detail] object of an event.  [SilenceEventDetail],
    [MuteEventDetail], [PreSpeechStartEventDetail] and the literal built by
    [signal] differ in the fields they have: a field that an object does
    not have, or that is [undefined], is [None]. *)
Record Detail := {
  event : string;
  volume : float;
  timestamp : float;
  duration : option float;
  items : option float;
  abort : option string
}.

Definition set_abort (msg : string) (d : Detail) : Detail :=
  {| event := event d; volume := volume d; timestamp := timestamp d;
     duration := duration d; items := items d; abort := Some msg |}.

(** Objects are referred to by their location in the store. *)
Definition loc := nat.

(** One call of [dispatchEvent(new CustomEvent(type, eventData))]: the
    type of the event, the [detail] object it carries, and the content of
    that object when the listeners run. *)
Record Dispatched := {
  type : string;
  detail : loc;
  payload : Detail
}.

(** An event of type [ty] carrying the object at [l], seen as [d]. *)
Definition ev (ty : string) (l : loc) (d : Detail) : Dispatched :=
  {| type := ty; detail := l; payload := d |}.

Definition is_sampling (ty : string) : bool :=
  String.eqb ty "silence" || String.eqb ty "signal" || String.eqb ty "mute".

Definition is_terminal (ty : string) : bool :=
  String.eqb ty "speechstop" || String.eqb ty "speechabort".

Definition is_resolution (ty : string) : bool :=
  String.eqb ty "speechstart" || is_terminal ty.

Definition is_mic_transition (ty : string) : bool :=
  String.eqb ty "mutedmic" || String.eqb ty "unmutedmic".

End Events.

(* ===================================================================== *)
(** * utils.ts *)
(* ===================================================================== *)

Module Utils.

Local Open Scope float_scope.

(** Modelled from the spec: [average] of [./utils] is not among the
    sources.  The spec calls it on the volumes of a segment,
    [avgVolume = average(segmentVolumes)], the arithmetic mean: the sum of
    the values divided by their number. *)
Definition average (values : list float) : float :=
  fold_left PrimFloat.add values 0 / JS.of_length (length values).

End Utils.

(* ===================================================================== *)
(** * audioDetection.ts *)
(* ===================================================================== *)

(** The constants imported from [./audioDetectionConfig], which is not among
    the sources: they are parameters of the development. *)
Class Constants := {
  MAX_INTERSPEECH_SILENCE_MSECS : float;
  MIN_AVERAGE_SIGNAL_VOLUME : float;
  MIN_SIGNAL_DURATION : float;
  PRE_RECORD_START_MSECS : float;
  SAMPLE_POLLING_MSECS : float;
  VOLUME_MUTE : float;
  VOLUME_SIGNAL : float;
  VOLUME_SILENCE : float
}.

(** The conversion of a number to a string that a template literal
    performs. *)
Class Host := {
  Number_toString : float -> string
}.

Module AudioDetection.

Import JS Events.
Local Open Scope string_scope.

(** [interface AudioDetectionConfig]: every field is optional. *)
Record AudioDetectionConfig := {
  cfg_timeoutMilliSecs : option float;
  cfg_prespeechstartMilliSecs : option float;
  cfg_speakingMinVolume : option float;
  cfg_silenceVolume : option float;
  cfg_muteVolume : option float;
  cfg_recordingEnabled : option bool
}.

(** The constructor's default argument [{}]. *)
Definition empty_config : AudioDetectionConfig :=
  {| cfg_timeoutMilliSecs := None; cfg_prespeechstartMilliSecs := None;
     cfg_speakingMinVolume := None; cfg_silenceVolume := None;
     cfg_muteVolume := None; cfg_recordingEnabled := None |}.

(** The fields of the class.  [meter] is a reference to the volume meter,
    an object of its own in the [World] below. *)
Record AudioDetection := {
  volumeState : string;
  speechStarted : bool;
  silenceItems : float;
  signalItems : float;
  speechstartTime : float;
  prerecordingItems : float;
  speechVolumesList : list float;
  maxSilenceItems : float;
  timeoutMilliSecs : float;
  prespeechstartMilliSecs : float;
  speakingMinVolume : float;
  silenceVolume : float;
  muteVolume : float;
  recordingEnabled : bool;
  stopRunning : bool
}.

Definition set_volumeState (v : string) (a : AudioDetection) : AudioDetection :=
  {| volumeState := v; speechStarted := speechStarted a;
     silenceItems := silenceItems a; signalItems := signalItems a;
     speechstartTime := speechstartTime a;
     prerecordingItems := prerecordingItems a;
     speechVolumesList := speechVolumesList a;
     maxSilenceItems := maxSilenceItems a;
     timeoutMilliSecs := timeoutMilliSecs a;
     prespeechstartMilliSecs := prespeechstartMilliSecs a;
     speakingMinVolume := speakingMinVolume a;
     silenceVolume := silenceVolume a; muteVolume := muteVolume a;
     recordingEnabled := recordingEnabled a; stopRunning := stopRunning a |}.

Definition set_speechStarted (v : bool) (a : AudioDetection) : AudioDetection :=
  {| volumeState := volumeState a; speechStarted := v;
     silenceItems := silenceItems a; signalItems := signalItems a;
     speechstartTime := speechstartTime a;
     prerecordingItems := prerecordingItems a;
     speechVolumesList := speechVolumesList a;
     maxSilenceItems := maxSilenceItems a;
     timeoutMilliSecs := timeoutMilliSecs a;
     prespeechstartMilliSecs := prespeechstartMilliSecs a;
     speakingMinVolume := speakingMinVolume a;
     silenceVolume := silenceVolume a; muteVolume := muteVolume a;
     recordingEnabled := recordingEnabled a; stopRunning := stopRunning a |}.

Definition set_silenceItems (v : float) (a : AudioDetection) : AudioDetection :=
  {| volumeState := volumeState a; speechStarted := speechStarted a;
     silenceItems := v; signalItems := signalItems a;
     speechstartTime := speechstartTime a;
     prerecordingItems := prerecordingItems a;
     speechVolumesList := speechVolumesList a;
     maxSilenceItems := maxSilenceItems a;
     timeoutMilliSecs := timeoutMilliSecs a;
     prespeechstartMilliSecs := prespeechstartMilliSecs a;
     speakingMinVolume := speakingMinVolume a;
     silenceVolume := silenceVolume a; muteVolume := muteVolume a;
     recordingEnabled := recordingEnabled a; stopRunning := stopRunning a |}.

Definition set_signalItems (v : float) (a : AudioDetection) : AudioDetection :=
  {| volumeState := volumeState a; speechStarted := speechStarted a;
     silenceItems := silenceItems a; signalItems := v;
     speechstartTime := speechstartTime a;
     prerecordingItems := prerecordingItems a;
     speechVolumesList := speechVolumesList a;
     maxSilenceItems := maxSilenceItems a;
     timeoutMilliSecs := timeoutMilliSecs a;
     prespeechstartMilliSecs := prespeechstartMilliSecs a;
     speakingMinVolume := speakingMinVolume a;
     silenceVolume := silenceVolume a; muteVolume := muteVolume a;
     recordingEnabled := recordingEnabled a; stopRunning := stopRunning a |}.

Definition set_speechstartTime (v : float) (a : AudioDetection) : AudioDetection :=
  {| volumeState := volumeState a; speechStarted := speechStarted a;
     silenceItems := silenceItems a; signalItems := signalItems a;
     speechstartTime := v;
     prerecordingItems := prerecordingItems a;
     speechVolumesList := speechVolumesList a;
     maxSilenceItems := maxSilenceItems a;
     timeoutMilliSecs := timeoutMilliSecs a;
     prespeechstartMilliSecs := prespeechstartMilliSecs a;
     speakingMinVolume := speakingMinVolume a;
     silenceVolume := silenceVolume a; muteVolume := muteVolume a;
     recordingEnabled := recordingEnabled a; stopRunning := stopRunning a |}.

Definition set_prerecordingItems (v : float) (a : AudioDetection) : AudioDetection :=
  {| volumeState := volumeState a; speechStarted := speechStarted a;
     silenceItems := silenceItems a; signalItems := signalItems a;
     speechstartTime := speechstartTime a;
     prerecordingItems := v;
     speechVolumesList := speechVolumesList a;
     maxSilenceItems := maxSilenceItems a;
     timeoutMilliSecs := timeoutMilliSecs a;
     prespeechstartMilliSecs := prespeechstartMilliSecs a;
     speakingMinVolume := speakingMinVolume a;
     silenceVolume := silenceVolume a; muteVolume := muteVolume a;
     recordingEnabled := recordingEnabled a; stopRunning := stopRunning a |}.

Definition set_speechVolumesList (v : list float) (a : AudioDetection) : AudioDetection :=
  {| volumeState := volumeState a; speechStarted := speechStarted a;
     silenceItems := silenceItems a; signalItems := signalItems a;
     speechstartTime := speechstartTime a;
     prerecordingItems := prerecordingItems a;
     speechVolumesList := v;
     maxSilenceItems := maxSilenceItems a;
     timeoutMilliSecs := timeoutMilliSecs a;
     prespeechstartMilliSecs := prespeechstartMilliSecs a;
     speakingMinVolume := speakingMinVolume a;
     silenceVolume := silenceVolume a; muteVolume := muteVolume a;
     recordingEnabled := recordingEnabled a; stopRunning := stopRunning a |}.

Definition set_stopRunning (v : bool) (a : AudioDetection) : AudioDetection :=
  {| volumeState := volumeState a; speechStarted := speechStarted a;
     silenceItems := silenceItems a; signalItems := signalItems a;
     speechstartTime := speechstartTime a;
     prerecordingItems := prerecordingItems a;
     speechVolumesList := speechVolumesList a;
     maxSilenceItems := maxSilenceItems a;
     timeoutMilliSecs := timeoutMilliSecs a;
     prespeechstartMilliSecs := prespeechstartMilliSecs a;
     speakingMinVolume := speakingMinVolume a;
     silenceVolume := silenceVolume a; muteVolume := muteVolume a;
     recordingEnabled := recordingEnabled a; stopRunning := v |}.

(** ** The world of a running detector

    The detector, the volume meter it reads (which the audio callback
    updates between two ticks) and the store of the [detail] objects. *)
Record World := {
  this : AudioDetection;
  meter : VolumeMeter.VolumeMeter;
  heap : list Detail
}.

(** A method: it reads and updates the world and dispatches events, in
    order. *)
Definition M (A : Type) : Type := World -> A * World * list Dispatched.

Definition ret {A} (a : A) : M A := fun w => (a, w, []).

Definition bind {A B} (m : M A) (k : A -> M B) : M B :=
  fun w =>
    let '(a, w1, out1) := m w in
    let '(b, w2, out2) := k a w1 in
    (b, w2, (out1 ++ out2)%list).

Declare Scope js_scope.
Delimit Scope js_scope with js.
Notation "'let*' x ':=' m 'in' k" := (bind m (fun x => k))
  (at level 10, x name, m at level 100, k at level 200) : js_scope.
Notation "m ';;' k" := (bind m (fun _ => k))
  (at level 100, k at level 200, right associativity) : js_scope.
Local Open Scope js_scope.

(** [this.f] *)
Definition get {A} (f : AudioDetection -> A) : M A :=
  fun w => (f (this w), w, []).

(** [this.f = v], with the setter of [f] *)
Definition set {A} (setter : A -> AudioDetection -> AudioDetection) (v : A) : M unit :=
  fun w => (tt, {| this := setter v (this w); meter := meter w; heap := heap w |}, []).

(** [this.meter.volume] *)
Definition meter_volume : M float :=
  fun w => (VolumeMeter.volume (meter w), w, []).

(** An object literal: a new object in the store. *)
Definition new_object (d : Detail) : M loc :=
  fun w => (length (heap w),
            {| this := this w; meter := meter w; heap := (heap w ++ [d])%list |}, []).

(** [eventData.detail.abort = msg] *)
Definition assign_abort (l : loc) (msg : string) : M unit :=
  fun w => (tt, {| this := this w; meter := meter w;
                   heap := alter (set_abort msg) l (heap w) |}, []).

(** [this.dispatchEvent(new CustomEvent(ty, eventData))]: the listeners
    run now and see the object as it is now.  Every location that a method
    dispatches comes from [new_object] and is in the store. *)
Definition dispatchEvent (ty : string) (l : loc) : M unit :=
  fun w => (tt, w, match heap w !! l with
                   | Some d => [ {| type := ty; detail := l; payload := d |} ]
                   | None => []
                   end).

Definition when (b : bool) (m : M unit) : M unit := if b then m else ret tt.

(** What a method does to a world, and what it dispatches. *)
Definition exec {A} (m : M A) (w : World) : World := snd (fst (m w)).
Definition dispatched {A} (m : M A) (w : World) : list Dispatched := snd (m w).

Section Methods.

Context {K : Constants} {H : Host}.
Local Open Scope float_scope.

(** The field initialisers and the constructor, on the destructured
    configuration with its defaults. *)
Definition constructor (config : AudioDetectionConfig) : AudioDetection :=
  {| volumeState := "mute";
     speechStarted := false;
     silenceItems := 0;
     signalItems := 0;
     speechstartTime := 0;
     prerecordingItems := 0;
     speechVolumesList := [];
     maxSilenceItems :=
       Math_round (MAX_INTERSPEECH_SILENCE_MSECS / SAMPLE_POLLING_MSECS);
     timeoutMilliSecs := default SAMPLE_POLLING_MSECS (cfg_timeoutMilliSecs config);
     prespeechstartMilliSecs :=
       default PRE_RECORD_START_MSECS (cfg_prespeechstartMilliSecs config);
     speakingMinVolume := default VOLUME_SIGNAL (cfg_speakingMinVolume config);
     silenceVolume := default VOLUME_SILENCE (cfg_silenceVolume config);
     muteVolume := default VOLUME_MUTE (cfg_muteVolume config);
     recordingEnabled := default true (cfg_recordingEnabled config);
     stopRunning := false |}.


(** [new AudioDetection(meter, config)]: the instance, the meter it
    refers to and an empty store. *)
Definition new_AudioDetection (meter : VolumeMeter.VolumeMeter)
    (config : AudioDetectionConfig) : World :=
  {| this := constructor config; meter := meter; heap := [] |}.

(** The same as a completion.  Neither the field initialisers nor the
    body of the constructor contain a [throw], and they call nothing
    but [super()] and [Math.round]. *)
Definition construct (meter : VolumeMeter.VolumeMeter)
    (config : AudioDetectionConfig) : completion World :=
  Normal (new_AudioDetection meter config).

(** [++this.f], for the field [f] with its setter: the new value. *)
Definition pre_increment (f : AudioDetection -> float)
    (setter : float -> AudioDetection -> AudioDetection) : M float :=
  let* n := get f in
  set setter (incr n) ;;
  ret (incr n).

(** [this.speechVolumesList.push(v)] *)
Definition push_speechVolumesList (v : float) : M unit :=
  let* l := get speechVolumesList in
  set set_speechVolumesList (l ++ [v])%list.

Definition averageSignal : M float :=
  let* l := get speechVolumesList in
  ret (Utils.average l).

Definition mute (timestamp duration : float) : M unit :=
  let* vol := meter_volume in
  let* eventData :=
    new_object {| event := "mute"; volume := vol; timestamp := timestamp;
                  duration := Some duration; items := None; abort := None |} in
  dispatchEvent "mute" eventData ;;
  let* vs := get volumeState in
  when (negb (String.eqb vs "mute"))
    (dispatchEvent "mutedmic" eventData ;;
     set set_volumeState "mute").

Definition signal (timestamp duration : float) : M unit :=
  set set_silenceItems 0 ;;
  let* vol := meter_volume in
  let* n := pre_increment signalItems set_signalItems in
  let* eventData :=
    new_object {| event := "signal"; volume := vol; timestamp := timestamp;
                  duration := Some duration; items := Some n; abort := None |} in
  let* started := get speechStarted in
  when (negb started)
    (dispatchEvent "speechstart" eventData ;;
     set set_speechstartTime timestamp ;;
     set set_speechStarted true ;;
     set set_speechVolumesList []) ;;
  let* v := meter_volume in
  push_speechVolumesList v ;;
  dispatchEvent "signal" eventData ;;
  let* vs := get volumeState in
  when (String.eqb vs "mute")
    (dispatchEvent "unmutedmic" eventData ;;
     set set_volumeState "signal").

Definition abort_duration (signalDuration : float) : string :=
  "signal duration (" ++ Number_toString signalDuration
    ++ ") < MIN_SIGNAL_DURATION (" ++ Number_toString MIN_SIGNAL_DURATION ++ ")".

Definition abort_volume (averageSignalValue : float) : string :=
  "signal average volume (" ++ Number_toString averageSignalValue
    ++ ") < MIN_AVERAGE_SIGNAL_VOLUME ("
    ++ Number_toString MIN_AVERAGE_SIGNAL_VOLUME ++ ")".

Definition silence (timestamp duration : float) : M unit :=
  set set_signalItems 0 ;;
  let* vol := meter_volume in
  let* n := pre_increment silenceItems set_silenceItems in
  let* eventData :=
    new_object {| event := "silence"; volume := vol; timestamp := timestamp;
                  duration := Some duration; items := Some n; abort := None |} in
  dispatchEvent "silence" eventData ;;
  let* vs := get volumeState in
  when (String.eqb vs "mute")
    (dispatchEvent "unmutedmic" eventData ;;
     set set_volumeState "silence") ;;
  let* started := get speechStarted in
  let* si := get silenceItems in
  let* mx := get maxSilenceItems in
  when (started && strict_eq si mx)
    (let signalDuration := duration - MAX_INTERSPEECH_SILENCE_MSECS in
     let* averageSignalValue := averageSignal in
     (if lt signalDuration MIN_SIGNAL_DURATION then
        assign_abort eventData (abort_duration signalDuration) ;;
        dispatchEvent "speechabort" eventData
      else if lt averageSignalValue MIN_AVERAGE_SIGNAL_VOLUME then
        assign_abort eventData (abort_volume averageSignalValue) ;;
        dispatchEvent "speechabort" eventData
      else
        dispatchEvent "speechstop" eventData) ;;
     set set_speechStarted false).

(** [Date_now] is what [Date.now()] returns. *)
Definition sampleThresholdsDecision (Date_now : float) : M unit :=
  let timestamp := Date_now in
  let* start := get speechstartTime in
  let duration := timestamp - start in
  let* vol := meter_volume in
  let* muteVol := get muteVolume in
  let* speakingMin := get speakingMinVolume in
  if lt vol muteVol then mute timestamp duration
  else if gt vol speakingMin then signal timestamp duration
  else silence timestamp duration.

Definition prerecording (Date_now : float) : M unit :=
  let* n := pre_increment prerecordingItems set_prerecordingItems in
  let* vol := meter_volume in
  let* eventData :=
    new_object {| event := "prespeechstart"; volume := vol; timestamp := Date_now;
                  duration := None; items := Some n; abort := None |} in
  let* count := get prerecordingItems in
  let* tick := get timeoutMilliSecs in
  let* period := get prespeechstartMilliSecs in
  when (ge (count * tick) period)
    (let* started := get speechStarted in
     when (negb started) (dispatchEvent "prespeechstart" eventData) ;;
     set set_prerecordingItems 0).

(** What happens around one firing of the timer: the audio blocks that
    the meter processed since the previous firing, each with its clock,
    and the two readings of [Date.now()] of the callback. *)
Record Tick := {
  blocks : list (list float * (nat -> float));
  now_prerecording : float;
  now_decision : float
}.

(** The audio callbacks between two ticks: they update the meter. *)
Definition onaudioprocess (bs : list (list float * (nat -> float))) : M unit :=
  fun w =>
    (tt,
     {| this := this w;
        meter := fold_left (fun m b => VolumeMeter.volumeAudioProcess (fst b) (snd b) m)
                   bs (meter w);
        heap := heap w |},
     []).

(** The callback given to [setTimeout], up to the test of
    [stopRunning]. *)
Definition timeout_callback (t : Tick) : M unit :=
  prerecording (now_prerecording t) ;;
  let* enabled := get recordingEnabled in
  when enabled (sampleThresholdsDecision (now_decision t)).

(** [run()]: the chain of timers.  Each element of [ticks] is one firing;
    the chain goes on for as long as [stopRunning] is false. *)
Fixpoint run (ticks : list Tick) : M unit :=
  match ticks with
  | [] => ret tt
  | t :: rest =>
      onaudioprocess (blocks t) ;;
      timeout_callback t ;;
      let* stop := get stopRunning in
      if negb stop then run rest else ret tt
  end.

Definition start (ticks : list Tick) : M unit :=
  set set_stopRunning false ;;
  run ticks.

Definition stop : M unit := set set_stopRunning true.

End Methods.

End AudioDetection.

(* ===================================================================== *)
(** * connectAudioDetection.ts *)
(* ===================================================================== *)

Module ConnectAudioDetection.

(** [connectAudioDetection(audioContext, stream)]: a meter and a detector
    with their default parameters.  Connecting the stream to the meter is
    what makes the audio callbacks of a run arrive. *)
Definition connectAudioDetection {K : Constants} : AudioDetection.World :=
  let volumeMeter := VolumeMeter.constructor None None None in
  AudioDetection.new_AudioDetection volumeMeter AudioDetection.empty_config.

End ConnectAudioDetection.

(* ===================================================================== *)
(** * Vocabulary of the specification *)
(* ===================================================================== *)

Module Spec.

Import JS Events AudioDetection.
Local Open Scope string_scope.

(** The sum of the squares and the root mean square of a block, as the
    specification writes them: [rms = sqrt(sumOfSquares / blockLength)]. *)
Definition sumOfSquares (samples : list float) : float :=
  fold_left (fun sum x => sum + x * x)%float samples 0%float.

Definition rms (samples : list float) : float :=
  Math_sqrt (sumOfSquares samples / of_length (length samples))%float.

(** A number that is not NaN, and the order of two numbers ([a <= b] is
    false as soon as one of them is NaN). *)
Definition is_number (x : float) : bool := negb (is_nan x).
Definition le (a b : float) : bool := (a <=? b)%float.

(** The three-way classification of the volume that a tick reads. *)
Inductive Band := MuteBand | SignalBand | SilenceBand.

Definition band (w : World) : Band :=
  let vol := VolumeMeter.volume (meter w) in
  if lt vol (muteVolume (this w)) then MuteBand
  else if gt vol (speakingMinVolume (this w)) then SignalBand
  else SilenceBand.

(** The sampling event of a band. *)
Definition sampling_event (b : Band) : string :=
  match b with
  | MuteBand => "mute"
  | SignalBand => "signal"
  | SilenceBand => "silence"
  end.

Definition is_silence (b : Band) : bool :=
  match b with SilenceBand => true | _ => false end.

Definition is_signal (b : Band) : bool :=
  match b with SignalBand => true | _ => false end.

(** The tick opens a segment: a signal tick while no speech is active. *)
Definition opens (w : World) : bool :=
  is_signal (band w) && negb (speechStarted (this w)).

(** The resolution check of a silence tick: speech is active and the
    silence counter, once incremented, equals [maxSilenceItems]. *)
Definition reaches_max (w : World) : bool :=
  speechStarted (this w)
  && strict_eq (incr (silenceItems (this w))) (maxSilenceItems (this w)).

Definition resolves (w : World) : bool := is_silence (band w) && reaches_max w.

(** The [detail] object that each path builds for its tick. *)
Definition mute_detail (w : World) (timestamp duration : float) : Detail :=
  {| event := "mute"; volume := VolumeMeter.volume (meter w);
     timestamp := timestamp; duration := Some duration;
     items := None; abort := None |}.

Definition signal_detail (w : World) (timestamp duration : float) : Detail :=
  {| event := "signal"; volume := VolumeMeter.volume (meter w);
     timestamp := timestamp; duration := Some duration;
     items := Some (incr (signalItems (this w))); abort := None |}.

Definition silence_detail (w : World) (timestamp duration : float) : Detail :=
  {| event := "silence"; volume := VolumeMeter.volume (meter w);
     timestamp := timestamp; duration := Some duration;
     items := Some (incr (silenceItems (this w))); abort := None |}.

Definition prespeechstart_detail (w : World) (timestamp : float) : Detail :=
  {| event := "prespeechstart"; volume := VolumeMeter.volume (meter w);
     timestamp := timestamp; duration := None;
     items := Some (incr (prerecordingItems (this w))); abort := None |}.

(** While speech is active the segment has volumes. *)
Definition has_volumes (w : World) : Prop :=
  speechStarted (this w) = true -> speechVolumesList (this w) <> [].

(** The mic transition of a tick, if any. *)
Definition mic_transition (w : World) : list string :=
  match band w with
  | MuteBand => if String.eqb (volumeState (this w)) "mute" then [] else ["mutedmic"]
  | _ => if String.eqb (volumeState (this w)) "mute" then ["unmutedmic"] else []
  end.

(** The heartbeat counter after [k] ticks counted from 0. *)
Fixpoint counts (k : nat) : float :=
  match k with
  | O => 0%float
  | S k' => incr (counts k')
  end.

(** The threshold of the heartbeat, for a counter value. *)
Definition period_reached (a : AudioDetection) (count : float) : bool :=
  ge (count * timeoutMilliSecs a)%float (prespeechstartMilliSecs a).

(** A window of the heartbeat has at least [n] ticks: fewer ticks do not
    make up a period. *)
Definition window_at_least (a : AudioDetection) (n : nat) : Prop :=
  forall k, 1 <= k < n -> period_reached a (counts k) = false.

(** No resolution event and no mic transition before the sampling event:
    the ordering of the events of one tick. *)
Fixpoint sampling_first (types : list string) : bool :=
  match types with
  | [] => true
  | ty :: rest =>
      if is_sampling ty then true
      else if is_resolution ty || is_mic_transition ty then false
      else sampling_first rest
  end.

(** Segments in a sequence of events: [speechstart] only while no segment
    is active, a terminal event only while one is, and then it ends it. *)
Fixpoint segments (active : bool) (types : list string) : bool :=
  match types with
  | [] => true
  | ty :: rest =>
      if String.eqb ty "speechstart" then negb active && segments true rest
      else if is_terminal ty then active && segments false rest
      else segments active rest
  end.

Section WithConstants.

Context {K : Constants} {H : Host}.

(** The verdict on a segment, for the [duration] that the resolving
    tick computed. *)
Definition verdict (w : World) (duration : float) : string :=
  let signalDuration := (duration - MAX_INTERSPEECH_SILENCE_MSECS)%float in
  let avgVolume := Utils.average (speechVolumesList (this w)) in
  if lt signalDuration MIN_SIGNAL_DURATION then "speechabort"
  else if lt avgVolume MIN_AVERAGE_SIGNAL_VOLUME then "speechabort"
  else "speechstop".

(** The events of each firing of a run. *)
Fixpoint per_tick (ticks : list Tick) (w : World) : list (list Dispatched) :=
  match ticks with
  | [] => []
  | t :: rest =>
      let w1 := exec (onaudioprocess (blocks t)) w in
      let w2 := exec (timeout_callback t) w1 in
      dispatched (timeout_callback t) w1
      :: (if negb (stopRunning (this w2)) then per_tick rest w2 else [])
  end.

(** A firing emitted [prespeechstart]. *)
Definition emits_prespeechstart (events : list Dispatched) : bool :=
  existsb (fun e => String.eqb (type e) "prespeechstart") events.

End WithConstants.

End Spec.

(* ===================================================================== *)
(** * Instances used in the examples *)
(* ===================================================================== *)

Module Examples.

Import JS Events AudioDetection Spec.
Local Open Scope string_scope.
Local Open Scope float_scope.

(** The values of the examples of the specification: a tick of 100 ms,
    1000 ms of silence between two speeches, 300 ms of signal at least,
    thresholds 0.01 and 0.3. *)
Definition K0 : Constants :=
  {| MAX_INTERSPEECH_SILENCE_MSECS := 1000;
     MIN_AVERAGE_SIGNAL_VOLUME := 0.04;
     MIN_SIGNAL_DURATION := 300;
     PRE_RECORD_START_MSECS := 600;
     SAMPLE_POLLING_MSECS := 100;
     VOLUME_MUTE := 0.01;
     VOLUME_SIGNAL := 0.3;
     VOLUME_SILENCE := 0.1 |}.

(** Constants for which [maxSilenceItems] rounds to 0. *)
Definition K1 : Constants :=
  {| MAX_INTERSPEECH_SILENCE_MSECS := 10;
     MIN_AVERAGE_SIGNAL_VOLUME := 0.04;
     MIN_SIGNAL_DURATION := 300;
     PRE_RECORD_START_MSECS := 600;
     SAMPLE_POLLING_MSECS := 100;
     VOLUME_MUTE := 0.01;
     VOLUME_SIGNAL := 0.3;
     VOLUME_SILENCE := 0.1 |}.

(** A host that prints every number the same way. *)
Definition H0 : Host := {| Number_toString := fun _ => "#" |}.

Definition clock0 : nat -> float := fun _ => 0.

(** A meter with the default parameters, and one without smoothing, whose
    volume is the root mean square of the last block. *)
Definition meter0 : VolumeMeter.VolumeMeter :=
  VolumeMeter.constructor None None None.
Definition meter1 : VolumeMeter.VolumeMeter :=
  VolumeMeter.constructor None (Some 0) None.

(** A detector with the default configuration. *)
Definition w0 : World := @new_AudioDetection K0 meter1 empty_config.

(** A tick at time [t], after one block of the single sample [v]. *)
Definition tick_at (v t : float) : Tick :=
  {| blocks := [([v], clock0)]; now_prerecording := t; now_decision := t |}.

(** The detector when it reads the volume 0.5 for the first time. *)
Definition w_loud : World := exec (onaudioprocess [([0.5], clock0)]) w0.

(** A tick interval of 50 ms, half the default one. *)
Definition config50 : AudioDetectionConfig :=
  {| cfg_timeoutMilliSecs := Some 50; cfg_prespeechstartMilliSecs := None;
     cfg_speakingMinVolume := None; cfg_silenceVolume := None;
     cfg_muteVolume := None; cfg_recordingEnabled := None |}.

(** Thresholds that are not monotonic: [muteVolume >= speakingMinVolume]. *)
Definition config_crossed : AudioDetectionConfig :=
  {| cfg_timeoutMilliSecs := None; cfg_prespeechstartMilliSecs := None;
     cfg_speakingMinVolume := Some 0.3; cfg_silenceVolume := None;
     cfg_muteVolume := Some 0.5; cfg_recordingEnabled := None |}.

(** Five ticks of signal, then eleven of silence. *)
Definition speech_then_silence : list Tick :=
  ([tick_at 0.5 1000; tick_at 0.5 1100; tick_at 0.5 1200; tick_at 0.5 1300;
    tick_at 0.5 1400]
   ++ map (fun i => tick_at 0.1 (1500 + 100 * of_length i)) (seq 0 11))%list.

(** Its first fourteen ticks: the next tick of silence is the tenth. *)
Definition speech_then_nine_silences : list Tick :=
  firstn 14 speech_then_silence.

(** Thirteen ticks of silence: the heartbeat fires at the sixth and at the
    twelfth. *)
Definition thirteen_silent_ticks : list Tick :=
  map (fun i => tick_at 0.1 (100 * of_length i)) (seq 0 13).

(** Two ticks of signal, 200 ms, then ten of silence. *)
Definition short_speech : list Tick :=
  ([tick_at 0.5 1000; tick_at 0.5 1100]
   ++ map (fun i => tick_at 0.1 (1200 + 100 * of_length i)) (seq 0 10))%list.

(** Constants that ask for an average volume above the signal threshold,
    and five ticks of a signal below it, then ten of silence. *)
Definition K2 : Constants :=
  {| MAX_INTERSPEECH_SILENCE_MSECS := 1000;
     MIN_AVERAGE_SIGNAL_VOLUME := 0.4;
     MIN_SIGNAL_DURATION := 300;
     PRE_RECORD_START_MSECS := 600;
     SAMPLE_POLLING_MSECS := 100;
     VOLUME_MUTE := 0.01;
     VOLUME_SIGNAL := 0.3;
     VOLUME_SILENCE := 0.1 |}.

Definition quiet_speech : list Tick :=
  (map (fun i => tick_at 0.35 (1000 + 100 * of_length i)) (seq 0 5)
   ++ map (fun i => tick_at 0.1 (1500 + 100 * of_length i)) (seq 0 10))%list.

(** Five ticks at the volume 0.005, below [muteVolume]. *)
Definition five_mute_ticks : list Tick :=
  map (fun i => tick_at 0.005 (1000 + 100 * of_length i)) (seq 0 5).

(** A detector with a tick of 50 ms; eight ticks of signal, 400 ms, from
    time 1000 on, the last one at 1350, then ten of silence. *)
Definition w50 : World := @new_AudioDetection K0 meter1 config50.

Definition speech_at_50ms : list Tick :=
  (map (fun i => tick_at 0.5 (1000 + 50 * of_length i)) (seq 0 8)
   ++ map (fun i => tick_at 0.1 (1400 + 50 * of_length i)) (seq 0 10))%list.

(** A detector that does not record. *)
Definition config_disabled : AudioDetectionConfig :=
  {| cfg_timeoutMilliSecs := None; cfg_prespeechstartMilliSecs := None;
     cfg_speakingMinVolume := None; cfg_silenceVolume := None;
     cfg_muteVolume := None; cfg_recordingEnabled := Some false |}.

Definition w_disabled : World := @new_AudioDetection K0 meter1 config_disabled.

(** A detector in the middle of a speech: two ticks of signal. *)
Definition w_speaking : World :=
  exec (start (K := K0) (H := H0) [tick_at 0.5 1000; tick_at 0.5 1100]) w0.

(** A detector whose meter has processed an empty block. *)
Definition w_deaf : World :=
  exec (onaudioprocess [([], clock0)]) w0.

(** The type, the time and the message of an event. *)
Definition summary (e : Dispatched) : string * float * option string :=
  (type e, timestamp (payload e), abort (payload e)).

End Examples.

(* ===================================================================== *)
(** * Vocabulary of the behaviour of the meter and of the detector *)
(* ===================================================================== *)

Module Behaviour.

Import JS IEEE Events AudioDetection Spec.
Local Open Scope string_scope.

(** The test of the loop of [volumeAudioProcess] on a sample, for the
    [clipLevel] of the meter: [Math.abs(x) >= this.clipLevel]. *)
Definition clips (clipLevel : float) (x : float) : bool :=
  ge (Math_abs x) clipLevel.

(** The clock at the last sample of a block that clips, if one does; [i] is
    the index of the first sample of [buf]. *)
Fixpoint last_clip_time (clk : nat -> float) (clipLevel : float)
    (i : nat) (buf : list float) : option float :=
  match buf with
  | [] => None
  | x :: rest =>
      match last_clip_time clk clipLevel (S i) rest with
      | Some t => Some t
      | None => if clips clipLevel x then Some (clk i) else None
      end
  end.

(** The audio callback on a sequence of blocks, each with its clock. *)
Definition process (bs : list (list float * (nat -> float)))
    (m : VolumeMeter.VolumeMeter) : VolumeMeter.VolumeMeter :=
  fold_left (fun m b => VolumeMeter.volumeAudioProcess (fst b) (snd b) m) bs m.

(** [checkClipping()] called at each of the times, in order: the results. *)
Fixpoint checks (times : list float) (m : VolumeMeter.VolumeMeter) : list bool :=
  match times with
  | [] => []
  | now :: rest =>
      let '(r, m') := VolumeMeter.checkClipping now m in
      r :: checks rest m'
  end.

(** A block as the audio platform delivers it: not empty, of a length
    below 2^53, and of samples that are numbers. *)
Definition audio_block (b : list float * (nat -> float)) : bool :=
  negb (Nat.eqb (length (fst b)) 0)
  && (Z.of_nat (length (fst b)) <? 2 ^ 53)%Z
  && forallb is_number (fst b).

(** A finite positive number, such as the default averaging factor. *)
Definition positive_finite (x : float) : bool :=
  lt 0%float x && is_finite x.

Definition is_mute (b : Band) : bool :=
  match b with MuteBand => true | _ => false end.

(** The mic transitions in a sequence of events: [unmutedmic] only while
    the mic is muted, [mutedmic] only while it is not. *)
Fixpoint mic_alternates (muted : bool) (types : list string) : bool :=
  match types with
  | [] => true
  | ty :: rest =>
      if String.eqb ty "unmutedmic" then muted && mic_alternates false rest
      else if String.eqb ty "mutedmic" then negb muted && mic_alternates true rest
      else mic_alternates muted rest
  end.

(** An event has an abort message exactly when it is a [speechabort]. *)
Definition abort_consistent (e : Dispatched) : bool :=
  match abort (payload e) with
  | Some _ => String.eqb (type e) "speechabort"
  | None => negb (String.eqb (type e) "speechabort")
  end.

(** The timestamp of the last [speechstart] of a sequence of events, or
    [t0] if there is none. *)
Definition last_speechstart (t0 : float) (events : list Dispatched) : float :=
  fold_left (fun t e => if String.eqb (type e) "speechstart"
                        then timestamp (payload e) else t)
    events t0.

(** An event that a detector reading NaN never dispatches. *)
Definition needs_a_volume (ty : string) : bool :=
  String.eqb ty "signal" || String.eqb ty "mute"
  || String.eqb ty "speechstart" || String.eqb ty "mutedmic".

(** What a segment consists of. *)
Definition segment_state (a : AudioDetection)
    : bool * float * float * float * list float :=
  (speechStarted a, silenceItems a, signalItems a, speechstartTime a,
   speechVolumesList a).

Section WithConstants.

Context {K : Constants} {H : Host}.

(** The worlds in which the callbacks of a run start, after the audio
    blocks that precede each of them. *)
Fixpoint firings (ticks : list Tick) (w : World) : list World :=
  match ticks with
  | [] => []
  | t :: rest =>
      let w1 := exec (onaudioprocess (blocks t)) w in
      let w2 := exec (timeout_callback t) w1 in
      w1 :: (if negb (stopRunning (this w2)) then firings rest w2 else [])
  end.

(** Ticks whose audio blocks are all blocks of the audio platform. *)
Definition platform_ticks (ticks : list Tick) : bool :=
  forallb (fun t => forallb audio_block (blocks t)) ticks.

End WithConstants.

End Behaviour.

(* ===================================================================== *)
(** * Signs and order of IEEE 754 values *)
(* ===================================================================== *)

Module FloatFacts.

Import IEEE.
Local Open Scope Z_scope.

Lemma shr_1_nonneg mrs : 0 <= shr_m mrs -> 0 <= shr_m (shr_1 mrs).
Proof.
  destruct mrs as [m r s]. cbn. destruct m as [|p|p]; cbn; try lia.
  - destruct p; cbn; lia.
Qed.

Lemma iter_pos_invariant {A} (P : A -> Prop) (f : A -> A) :
  (forall x, P x -> P (f x)) -> forall p x, P x -> P (SpecFloat.iter_pos f p x).
Proof.
  intros Hf. induction p as [p IH|p IH|]; intros x Hx; cbn; auto.
Qed.

Lemma shr_nonneg mrs e n : 0 <= shr_m mrs -> 0 <= shr_m (fst (shr mrs e n)).
Proof.
  intros Hm. unfold shr. destruct n; cbn; try exact Hm.
  apply (iter_pos_invariant (fun r => 0 <= shr_m r)); [apply shr_1_nonneg | exact Hm].
Qed.

Lemma shr_fexp_nonneg prec emax m e l :
  0 <= m -> 0 <= shr_m (fst (shr_fexp prec emax m e l)).
Proof.
  intros Hm. unfold shr_fexp. apply shr_nonneg.
  destruct l as [|[]]; exact Hm.
Qed.

Lemma round_nearest_even_nonneg m l : 0 <= m -> 0 <= round_nearest_even m l.
Proof.
  intros Hm. unfold round_nearest_even. destruct l as [|[]]; try lia.
  destruct (Z.even m); lia.
Qed.

Lemma binary_round_aux_signed prec emax sx m e l :
  0 <= m -> SFsigned sx (binary_round_aux prec emax sx m e l).
Proof.
  intros Hm. unfold binary_round_aux.
  pose proof (shr_fexp_nonneg prec emax m e l Hm) as H1.
  destruct (shr_fexp prec emax m e l) as [mrs' e']. cbn [fst] in H1.
  pose proof (shr_fexp_nonneg prec emax
                (round_nearest_even (shr_m mrs') (loc_of_shr_record mrs')) e' loc_Exact
                (round_nearest_even_nonneg _ _ H1)) as H2.
  destruct (shr_fexp prec emax _ e' loc_Exact) as [mrs'' e'']. cbn [fst] in H2.
  destruct (shr_m mrs''); cbn; try reflexivity; try lia.
  destruct (e'' <=? emax - prec); reflexivity.
Qed.

Lemma SFsigned_nonneg x : SFsigned false x -> SFnonneg x = true.
Proof. destruct x; cbn; intros Hs; try rewrite Hs; try reflexivity; contradiction. Qed.

Lemma SFmul_square_nonneg prec emax x :
  SFis_nan x = false -> SFnonneg (SFmul prec emax x x) = true.
Proof.
  destruct x as [s|s| |s m e]; cbn; intros Hx; try reflexivity; try discriminate.
  - destruct s; reflexivity.
  - apply SFsigned_nonneg.
    replace (xorb s s) with false by (destruct s; reflexivity).
    apply binary_round_aux_signed. lia.
Qed.

Lemma binary_round_signed prec emax sx m e :
  SFsigned sx (binary_round prec emax sx m e).
Proof.
  unfold binary_round. destruct (shl_align _ _ _) as [mz ez].
  apply binary_round_aux_signed. lia.
Qed.

Lemma SFadd_nonneg prec emax x y :
  SFnonneg x = true -> SFnonneg y = true -> SFnonneg (SFadd prec emax x y) = true.
Proof.
  destruct x as [sx|sx| |sx mx ex]; destruct y as [sy|sy| |sy my ey]; cbn;
    intros Hx Hy; try discriminate; try reflexivity; try assumption.
  - destruct sx, sy; reflexivity.
  - destruct sx, sy; try discriminate; reflexivity.
  - destruct sx, sy; try discriminate. cbn.
    apply SFsigned_nonneg. apply binary_round_signed.
Qed.

Lemma SFdiv_nonneg prec emax x y :
  SFnonneg x = true -> SFpositive y = true -> SFnonneg (SFdiv prec emax x y) = true.
Proof.
  destruct x as [sx|sx| |sx mx ex]; destruct y as [sy|sy| |sy my ey]; cbn;
    intros Hx Hy; try discriminate; try reflexivity;
    destruct sx, sy; try discriminate; try reflexivity.
  unfold SFdiv_core_binary.
  set (m' := match _ with Z0 => _ | Z.pos _ => _ | Z.neg _ => _ end).
  assert (Hm' : 0 <= m').
  { subst m'. destruct (_ - _ - _); try lia. apply Z.shiftl_nonneg. lia. }
  pose proof (Z.div_pos m' (Z.pos my) Hm' ltac:(lia)) as Hq.
  unfold Z.div in Hq.
  destruct (Z.div_eucl m' (Z.pos my)) as [q r].
  apply SFsigned_nonneg. apply binary_round_aux_signed. exact Hq.
Qed.

Lemma SFsqrt_nonneg prec emax x :
  SFnonneg x = true -> SFnonneg (SFsqrt prec emax x) = true.
Proof.
  destruct x as [sx|sx| |sx mx ex]; cbn; intros Hx; try discriminate; try reflexivity.
  - destruct sx; try discriminate. reflexivity.
  - destruct sx; try discriminate.
    unfold SFsqrt_core_binary.
    set (m' := match _ with Z0 => _ | Z.pos _ => _ | Z.neg _ => _ end).
    pose proof (Z.sqrtrem_sqrt m') as Hs.
    destruct (Z.sqrtrem m') as [q r]. cbn in Hs.
    apply SFsigned_nonneg. apply binary_round_aux_signed.
    rewrite Hs. apply Z.sqrt_nonneg.
Qed.

(** ** Comparison *)

Lemma SFcompare_refl x : SFis_nan x = false -> SFcompare x x = Some Eq.
Proof.
  destruct x as [s|s| |s m e]; cbn; intros Hx; try discriminate; try reflexivity.
  - destruct s; reflexivity.
  - rewrite Z.compare_refl, Pos.compare_cont_refl. destruct s; reflexivity.
Qed.

Lemma SFcompare_antisym x y :
  SFcompare y x = option_map CompOpp (SFcompare x y).
Proof.
  destruct x as [sx|sx| |sx mx ex]; destruct y as [sy|sy| |sy my ey]; cbn;
    try reflexivity;
    try (destruct sx; reflexivity); try (destruct sy; reflexivity);
    try (destruct sx, sy; reflexivity).
  rewrite (Z.compare_antisym ex ey).
  assert (Hp : Pos.compare_cont Eq my mx = CompOpp (Pos.compare_cont Eq mx my))
    by (symmetry; apply (Pos.compare_cont_antisym mx my Eq)).
  rewrite Hp.
  destruct sx, sy; cbn; try reflexivity;
    destruct (ex ?= ey); cbn; try reflexivity.
Qed.

Lemma SFleb_zero_nonneg x : SFleb (S754_zero false) x = SFnonneg x.
Proof. destruct x as [s|s| |s m e]; try destruct s; reflexivity. Qed.

Lemma SFleb_nonneg x y :
  SFnonneg x = true -> SFleb x y = true -> SFnonneg y = true.
Proof.
  destruct x as [sx|sx| |sx mx ex]; destruct y as [sy|sy| |sy my ey];
    try destruct sx; try destruct sy; cbn; intros Hx Hy;
    try reflexivity; try discriminate.
Qed.

Lemma is_nan_spec x : is_nan x = SFis_nan (Prim2SF x).
Proof.
  unfold is_nan. rewrite FloatAxioms.eqb_spec. unfold SFeqb.
  destruct (SFis_nan (Prim2SF x)) eqn:Hx.
  - destruct (Prim2SF x); try discriminate. reflexivity.
  - rewrite SFcompare_refl by exact Hx. reflexivity.
Qed.

Lemma leb_zero_spec x : (0 <=? x)%float = SFnonneg (Prim2SF x).
Proof. rewrite FloatAxioms.leb_spec. apply SFleb_zero_nonneg. Qed.

(** ** Lengths *)

Lemma digits2_pos_bound p : forall n, 0 <= n -> Z.pos p < 2 ^ n -> Z.pos (digits2_pos p) <= n.
Proof.
  induction p as [p IH|p IH|]; intros n Hn Hp; cbn [digits2_pos].
  - assert (n <> 0) by (intros ->; cbn in Hp; lia).
    replace n with (Z.succ (n - 1)) in Hp by lia.
    rewrite Z.pow_succ_r in Hp by lia.
    specialize (IH (n - 1) ltac:(lia) ltac:(lia)). lia.
  - assert (n <> 0) by (intros ->; cbn in Hp; lia).
    replace n with (Z.succ (n - 1)) in Hp by lia.
    rewrite Z.pow_succ_r in Hp by lia.
    specialize (IH (n - 1) ltac:(lia) ltac:(lia)). lia.
  - assert (n <> 0) by (intros ->; cbn in Hp; lia). lia.
Qed.

Lemma digits2_pos_shift p k :
  Z.pos (digits2_pos (Pos.iter xO p k)) = Z.pos (digits2_pos p) + Z.pos k.
Proof.
  induction k as [|k IH] using Pos.peano_ind.
  - cbn. lia.
  - rewrite Pos.iter_succ. cbn [digits2_pos]. lia.
Qed.

(** A mantissa that is already in the format is not shifted. *)
Lemma shr_fexp_exact m e :
  fexp prec emax (Z.pos (digits2_pos m) + e) <= e ->
  shr_fexp prec emax (Z.pos m) e loc_Exact
  = ({| shr_m := Z.pos m; shr_r := false; shr_s := false |}, e).
Proof.
  intros Hf. unfold shr_fexp, shr. cbn [Zdigits2 shr_record_of_loc].
  destruct (fexp prec emax (Z.pos (digits2_pos m) + e) - e) eqn:Hd; try reflexivity.
  lia.
Qed.

Lemma binary_round_aux_exact s m e :
  fexp prec emax (Z.pos (digits2_pos m) + e) <= e ->
  binary_round_aux prec emax s (Z.pos m) e loc_Exact
  = if e <=? emax - prec then S754_finite s m e else S754_infinity s.
Proof.
  intros Hf. unfold binary_round_aux.
  rewrite (shr_fexp_exact m e Hf). cbn [shr_m loc_of_shr_record round_nearest_even].
  rewrite (shr_fexp_exact m e Hf). reflexivity.
Qed.

Lemma binary_normalize_small p :
  Z.pos p < 2 ^ 53 ->
  SFpositive (binary_normalize prec emax (Z.pos p) 0 false) = true.
Proof.
  intros Hp. cbn [binary_normalize]. unfold binary_round.
  pose proof (digits2_pos_bound p 53 ltac:(lia) Hp) as Hd.
  assert (Hpos : 0 < Z.pos (digits2_pos p)) by lia.
  unfold shl_align.
  destruct (fexp prec emax (Z.pos (digits2_pos p) + 0) - 0) as [|d|d] eqn:Hs.
  - rewrite binary_round_aux_exact; [reflexivity | lia].
  - exfalso. revert Hs. unfold fexp, SpecFloat.emin, prec, emax. lia.
  - rewrite binary_round_aux_exact.
    + destruct (_ <=? _) eqn:He; [reflexivity|].
      apply Z.leb_gt in He. revert He Hs. unfold prec, emax. lia.
    + rewrite digits2_pos_shift. revert Hs.
      unfold fexp, SpecFloat.emin, prec, emax. lia.
Qed.

Lemma of_length_positive n :
  (0 < n)%nat -> Z.of_nat n < 2 ^ 53 ->
  SFpositive (Prim2SF (of_uint63 (Uint63.of_Z (Z.of_nat n)))) = true.
Proof.
  intros Hn Hb. rewrite of_uint63_spec.
  rewrite Uint63.of_Z_spec.
  rewrite Z.mod_small.
  - destruct (Z.of_nat n) as [|p|p] eqn:Hz; try lia.
    apply binary_normalize_small. exact Hb.
  - split; [lia|]. apply Z.lt_trans with (2 ^ 53); [exact Hb|]. reflexivity.
Qed.

Lemma SFcompare_number x y :
  SFis_nan x = false -> SFis_nan y = false -> exists c, SFcompare x y = Some c.
Proof.
  destruct x as [sx|sx| |sx mx ex]; destruct y as [sy|sy| |sy my ey]; cbn;
    intros Hx Hy; try discriminate; eexists; reflexivity.
Qed.

Lemma leb_refl x : is_nan x = false -> (x <=? x)%float = true.
Proof.
  rewrite is_nan_spec, FloatAxioms.leb_spec. intros Hx. unfold SFleb.
  rewrite SFcompare_refl by exact Hx. reflexivity.
Qed.

Lemma ltb_leb x y : (x <? y)%float = true -> (x <=? y)%float = true.
Proof.
  rewrite FloatAxioms.ltb_spec, FloatAxioms.leb_spec. unfold SFltb, SFleb.
  destruct (SFcompare _ _) as [[]|]; congruence.
Qed.

Lemma not_ltb_leb x y :
  is_nan x = false -> is_nan y = false ->
  (x <? y)%float = false -> (y <=? x)%float = true.
Proof.
  rewrite !is_nan_spec, FloatAxioms.ltb_spec, FloatAxioms.leb_spec.
  unfold SFltb, SFleb. intros Hx Hy.
  rewrite (SFcompare_antisym (Prim2SF x) (Prim2SF y)).
  destruct (SFcompare_number _ _ Hx Hy) as [c ->]. destruct c; cbn; congruence.
Qed.

End FloatFacts.

(* ===================================================================== *)
(** * What each method does *)
(* ===================================================================== *)

Module Facts.

Import JS Events AudioDetection Spec.
Local Open Scope string_scope.

Lemma lookup_new (h : list Detail) (d : Detail) :
  (h ++ [d])%list !! length h = Some d.
Proof. rewrite lookup_app_r by lia. rewrite Nat.sub_diag. reflexivity. Qed.

Lemma alter_new (f : Detail -> Detail) (h : list Detail) (d : Detail) :
  alter f (length h) (h ++ [d])%list = (h ++ [f d])%list.
Proof. induction h as [|x h IH]; simpl; [reflexivity|]. f_equal. exact IH. Qed.

(** Case analysis on the first test of the goal. *)
Ltac case_if :=
  match goal with
  | |- context [if ?c then _ else _] => destruct c
  end.

(** Unfolds the operations of the monad. *)
Ltac run_monad :=
  unfold bind, get, set, meter_volume, new_object, dispatchEvent, assign_abort,
    when, ret, pre_increment, push_speechVolumesList, averageSignal; cbn.

Section WithConstants.

Context {K : Constants} {H : Host}.

Lemma mute_eq (w : World) (ts dur : float) :
  let a := this w in
  let d := mute_detail w ts dur in
  let l := length (heap w) in
  mute ts dur w =
  (tt,
   {| this := if String.eqb (volumeState a) "mute" then a
              else set_volumeState "mute" a;
      meter := meter w;
      heap := (heap w ++ [d])%list |},
   ev "mute" l d
   :: (if String.eqb (volumeState a) "mute" then [] else [ev "mutedmic" l d])).
Proof.
  unfold mute. run_monad. rewrite lookup_new.
  destruct (String.eqb (volumeState (this w)) "mute"); cbn.
  - reflexivity.
  - rewrite lookup_new. reflexivity.
Qed.

Lemma signal_eq (w : World) (ts dur : float) :
  let a := this w in
  let vol := VolumeMeter.volume (meter w) in
  let d := signal_detail w ts dur in
  let l := length (heap w) in
  let a1 := set_signalItems (incr (signalItems a)) (set_silenceItems 0%float a) in
  let a2 := if speechStarted a then a1
            else set_speechVolumesList []
                   (set_speechStarted true (set_speechstartTime ts a1)) in
  let a3 := set_speechVolumesList (speechVolumesList a2 ++ [vol])%list a2 in
  signal ts dur w =
  (tt,
   {| this := if String.eqb (volumeState a) "mute"
              then set_volumeState "signal" a3 else a3;
      meter := meter w;
      heap := (heap w ++ [d])%list |},
   ((if speechStarted a then [] else [ev "speechstart" l d])
    ++ ev "signal" l d
    :: (if String.eqb (volumeState a) "mute" then [ev "unmutedmic" l d] else []))%list).
Proof.
  unfold signal. run_monad.
  destruct w as [a m h]; destruct a; cbn.
  destruct speechStarted0; cbn; rewrite ?lookup_new; cbn;
    destruct (String.eqb volumeState0 "mute"); cbn; rewrite ?lookup_new;
    reflexivity.
Qed.


Lemma silence_eq (w : World) (ts dur : float) :
  let a := this w in
  let d := silence_detail w ts dur in
  let l := length (heap w) in
  let sd := (dur - MAX_INTERSPEECH_SILENCE_MSECS)%float in
  let avg := Utils.average (speechVolumesList a) in
  let d' := if lt sd MIN_SIGNAL_DURATION then set_abort (abort_duration sd) d
            else if lt avg MIN_AVERAGE_SIGNAL_VOLUME
                 then set_abort (abort_volume avg) d
                 else d in
  let a1 := set_silenceItems (incr (silenceItems a)) (set_signalItems 0%float a) in
  let a2 := if String.eqb (volumeState a) "mute"
            then set_volumeState "silence" a1 else a1 in
  silence ts dur w =
  (tt,
   {| this := if reaches_max w then set_speechStarted false a2 else a2;
      meter := meter w;
      heap := (heap w ++ [if reaches_max w then d' else d])%list |},
   (ev "silence" l d
    :: (if String.eqb (volumeState a) "mute" then [ev "unmutedmic" l d] else [])
    ++ (if reaches_max w then [ev (verdict w dur) l d'] else []))%list).
Proof.
  unfold silence, reaches_max, verdict. run_monad.
  destruct w as [a m h]; destruct a; cbn.
  rewrite lookup_new; cbn.
  destruct (String.eqb volumeState0 "mute"); cbn; rewrite ?lookup_new; cbn;
    destruct speechStarted0; cbn; try reflexivity;
    repeat (case_if; cbn; rewrite ?alter_new, ?lookup_new; cbn);
    reflexivity.
Qed.

Lemma prerecording_eq (w : World) (now : float) :
  let a := this w in
  let d := prespeechstart_detail w now in
  let count := incr (prerecordingItems a) in
  let a1 := set_prerecordingItems count a in
  prerecording now w =
  (tt,
   {| this := if period_reached a count
              then set_prerecordingItems 0%float a1 else a1;
      meter := meter w;
      heap := (heap w ++ [d])%list |},
   if period_reached a count && negb (speechStarted a)
   then [ev "prespeechstart" (length (heap w)) d] else []).
Proof.
  unfold prerecording, period_reached. run_monad.
  destruct w as [a m h]; destruct a; cbn.
  case_if; cbn; [|reflexivity].
  destruct speechStarted0; cbn; rewrite ?lookup_new; reflexivity.
Qed.

Lemma decision_eq (w : World) (now : float) :
  let dur := (now - speechstartTime (this w))%float in
  sampleThresholdsDecision now w =
  match band w with
  | MuteBand => mute now dur w
  | SignalBand => signal now dur w
  | SilenceBand => silence now dur w
  end.
Proof.
  unfold sampleThresholdsDecision, band, bind, get, meter_volume.
  cbv beta iota zeta.
  case_if.
  - destruct (mute _ _ w) as [[[] w'] out]. reflexivity.
  - case_if.
    + destruct (signal _ _ w) as [[[] w'] out]. reflexivity.
    + destruct (silence _ _ w) as [[[] w'] out]. reflexivity.
Qed.


(** Sequencing. *)
Lemma exec_bind {A B} (m : M A) (k : A -> M B) (w : World) :
  exec (bind m k) w = exec (k (fst (fst (m w)))) (exec m w).
Proof.
  unfold exec, bind. destruct (m w) as [[a w1] o1]. cbn.
  destruct (k a w1) as [[b w2] o2]. reflexivity.
Qed.

Lemma dispatched_bind {A B} (m : M A) (k : A -> M B) (w : World) :
  dispatched (bind m k) w
  = (dispatched m w ++ dispatched (k (fst (fst (m w)))) (exec m w))%list.
Proof.
  unfold dispatched, exec, bind. destruct (m w) as [[a w1] o1]. cbn.
  destruct (k a w1) as [[b w2] o2]. reflexivity.
Qed.

(** The heartbeat changes nothing but its counter and the store. *)
Lemma prerecording_exec (w : World) (now : float) :
  let a := this w in
  let count := incr (prerecordingItems a) in
  exec (prerecording now) w =
  {| this := set_prerecordingItems
               (if period_reached a count then 0%float else count) a;
     meter := meter w;
     heap := (heap w ++ [prespeechstart_detail w now])%list |}.
Proof.
  unfold exec. rewrite prerecording_eq. cbn [fst snd].
  destruct (period_reached _ _); destruct w as [a m h]; destruct a; reflexivity.
Qed.

(** The callback of the timer: the heartbeat, then the classification
    if recording is enabled. *)
Lemma timeout_callback_exec (w : World) (t : Tick) :
  let wp := exec (prerecording (now_prerecording t)) w in
  exec (timeout_callback t) w =
  if recordingEnabled (this w)
  then exec (sampleThresholdsDecision (now_decision t)) wp else wp.
Proof.
  unfold timeout_callback. rewrite exec_bind, exec_bind.
  rewrite prerecording_exec.
  unfold get at 2. cbn.
  destruct (recordingEnabled (this w)); reflexivity.
Qed.

Lemma timeout_callback_dispatched (w : World) (t : Tick) :
  let wp := exec (prerecording (now_prerecording t)) w in
  dispatched (timeout_callback t) w =
  (dispatched (prerecording (now_prerecording t)) w
   ++ (if recordingEnabled (this w)
       then dispatched (sampleThresholdsDecision (now_decision t)) wp else []))%list.
Proof.
  unfold timeout_callback. rewrite dispatched_bind, dispatched_bind.
  rewrite prerecording_exec.
  unfold get at 1 2 3. cbn.
  destruct (recordingEnabled (this w)); reflexivity.
Qed.

(** One firing of a run. *)
Lemma run_cons_exec (t : Tick) (rest : list Tick) (w : World) :
  let w1 := exec (onaudioprocess (blocks t)) w in
  let w2 := exec (timeout_callback t) w1 in
  exec (run (t :: rest)) w
  = if negb (stopRunning (this w2)) then exec (run rest) w2 else w2.
Proof.
  cbn [run]. rewrite exec_bind, exec_bind, exec_bind.
  unfold get. cbn [fst].
  destruct (negb _); reflexivity.
Qed.

Lemma run_cons_dispatched (t : Tick) (rest : list Tick) (w : World) :
  let w1 := exec (onaudioprocess (blocks t)) w in
  let w2 := exec (timeout_callback t) w1 in
  dispatched (run (t :: rest)) w
  = (dispatched (timeout_callback t) w1
     ++ (if negb (stopRunning (this w2)) then dispatched (run rest) w2 else []))%list.
Proof.
  cbn [run]. rewrite dispatched_bind, dispatched_bind, dispatched_bind.
  unfold get. cbn [fst].
  change (dispatched (onaudioprocess (blocks t)) w) with (@nil Dispatched).
  change (dispatched (fun w0 : World => (stopRunning (this w0), w0, []))
            (exec (timeout_callback t) (exec (onaudioprocess (blocks t)) w)))
    with (@nil Dispatched).
  cbn [app].
  destruct (negb _); reflexivity.
Qed.

(** A run dispatches the events of its firings, in order. *)
Lemma run_per_tick (ticks : list Tick) (w : World) :
  dispatched (run ticks) w = concat (per_tick ticks w).
Proof.
  revert w. induction ticks as [|t rest IH]; intros w; [reflexivity|].
  rewrite run_cons_dispatched. cbn [per_tick concat].
  destruct (negb _); [rewrite IH|]; reflexivity.
Qed.


(** The verdict is one of the two terminal events. *)
Lemma verdict_cases (w : World) (dur : float) :
  verdict w dur = "speechabort" \/ verdict w dur = "speechstop".
Proof. unfold verdict. repeat case_if; auto. Qed.

(** The types of the events of a classification, in order. *)
Lemma decision_types (w : World) (now : float) :
  map type (dispatched (sampleThresholdsDecision now) w) =
  ((if opens w then ["speechstart"] else [])
   ++ sampling_event (band w)
   :: mic_transition w
   ++ (if resolves w
       then [verdict w (now - speechstartTime (this w))%float] else []))%list.
Proof.
  unfold dispatched, opens, resolves, mic_transition.
  rewrite decision_eq.
  destruct (band w); cbn [is_signal is_silence andb sampling_event].
  - rewrite mute_eq. cbn [snd]. case_if; reflexivity.
  - rewrite signal_eq. cbn [snd].
    destruct (speechStarted (this w)); case_if; reflexivity.
  - rewrite silence_eq. cbn [snd].
    destruct (reaches_max w); case_if; reflexivity.
Qed.

(** Whether speech is active after a classification. *)
Lemma decision_speechStarted (w : World) (now : float) :
  speechStarted (this (exec (sampleThresholdsDecision now) w)) =
  if resolves w then false else speechStarted (this w) || is_signal (band w).
Proof.
  unfold exec, resolves. rewrite decision_eq.
  destruct (band w); cbn [is_signal is_silence andb].
  - rewrite mute_eq. cbn [fst snd this]. rewrite orb_false_r.
    case_if; reflexivity.
  - rewrite signal_eq. cbn [fst snd this]. rewrite orb_true_r.
    destruct w as [a m h]; destruct a; cbn.
    destruct speechStarted0; case_if; reflexivity.
  - rewrite silence_eq. cbn [fst snd this]. rewrite orb_false_r.
    unfold reaches_max.
    destruct w as [a m h]; destruct a; cbn.
    destruct speechStarted0; cbn; repeat case_if; reflexivity.
Qed.

End WithConstants.

End Facts.

(* ===================================================================== *)
(** * The classifier *)
(* ===================================================================== *)

Module Classifier.

Import JS Events AudioDetection Spec Examples Facts.
Local Open Scope string_scope.

Section WithConstants.

Context {K : Constants} {H : Host}.

(** The classification leaves alone what the heartbeat changes, and the
    other way round. *)
Lemma prerecording_this (w : World) (now : float) :
  exists count,
    this (exec (prerecording now) w) = set_prerecordingItems count (this w)
    /\ meter (exec (prerecording now) w) = meter w.
Proof. rewrite prerecording_exec. eexists. split; reflexivity. Qed.

Lemma verdict_terminal (w : World) (dur : float) :
  is_terminal (verdict w dur) = true.
Proof. destruct (verdict_cases w dur) as [-> | ->]; reflexivity. Qed.

Lemma verdict_not_speechstart (w : World) (dur : float) :
  String.eqb (verdict w dur) "speechstart" = false.
Proof. destruct (verdict_cases w dur) as [-> | ->]; reflexivity. Qed.

Lemma mic_transition_cases (w : World) :
  mic_transition w = [] \/ mic_transition w = ["mutedmic"]
  \/ mic_transition w = ["unmutedmic"].
Proof. unfold mic_transition. destruct (band w); case_if; auto. Qed.

Lemma opens_resolves (w : World) : opens w = true -> resolves w = false.
Proof. unfold opens, resolves. destruct (band w); cbn; congruence. Qed.

(** The events of a classification keep the segments well formed. *)
Lemma decision_segments (w : World) (now : float) (rest : list string) :
  segments (speechStarted (this w))
    (map type (dispatched (sampleThresholdsDecision now) w) ++ rest)%list
  = segments (speechStarted (this (exec (sampleThresholdsDecision now) w))) rest.
Proof.
  rewrite decision_types, decision_speechStarted.
  unfold opens, resolves, reaches_max.
  destruct (mic_transition_cases w) as [-> | [-> | ->]];
    destruct (band w); cbn [is_signal is_silence andb sampling_event];
    destruct (speechStarted (this w)); cbn;
    try reflexivity;
    case_if; cbn; rewrite ?verdict_not_speechstart, ?verdict_terminal;
    reflexivity.
Qed.

Lemma prerecording_segments (w : World) (now : float) (active : bool)
    (rest : list string) :
  segments active (map type (dispatched (prerecording now) w) ++ rest)%list
  = segments active rest.
Proof.
  unfold dispatched. rewrite prerecording_eq. cbn [snd].
  case_if; reflexivity.
Qed.

Lemma timeout_callback_segments (w : World) (t : Tick) (rest : list string) :
  segments (speechStarted (this w))
    (map type (dispatched (timeout_callback t) w) ++ rest)%list
  = segments (speechStarted (this (exec (timeout_callback t) w))) rest.
Proof.
  rewrite timeout_callback_dispatched, timeout_callback_exec.
  rewrite map_app, <- app_assoc, prerecording_segments.
  destruct (prerecording_this w (now_prerecording t)) as [count [Ht _]].
  destruct (recordingEnabled (this w)).
  - rewrite <- decision_segments. rewrite Ht. reflexivity.
  - rewrite Ht. reflexivity.
Qed.

Lemma run_segments (ticks : list Tick) (w : World) :
  segments (speechStarted (this w)) (map type (dispatched (run ticks) w)) = true.
Proof.
  revert w. induction ticks as [|t rest IH]; intros w; [reflexivity|].
  rewrite run_cons_dispatched, map_app.
  change (speechStarted (this w))
    with (speechStarted (this (exec (onaudioprocess (blocks t)) w))).
  rewrite timeout_callback_segments.
  destruct (negb _); [apply IH | reflexivity].
Qed.

(** C1: a classification dispatches a terminal event exactly when it is
    a silence tick on which speech is active and the silence counter
    reaches [maxSilenceItems]; then it dispatches one, [speechabort] if
    the signal duration is below [MIN_SIGNAL_DURATION], else
    [speechabort] if the average of the volumes of the segment is below
    [MIN_AVERAGE_SIGNAL_VOLUME], else [speechstop], and speech is no
    longer active.  On every other tick there is no terminal event.  In
    a run, a terminal event only occurs while a segment is active and
    ends it: no segment has two. *)
Theorem resolution_exactly_once (w : World) (now : float) (ticks : list Tick) :
  let m := sampleThresholdsDecision now in
  let duration := (now - speechstartTime (this w))%float in
  List.filter is_terminal (map type (dispatched m w))
  = (if resolves w then [verdict w duration] else [])
  /\ speechStarted (this (exec m w))
     = (if resolves w then false
        else speechStarted (this w) || is_signal (band w))
  /\ segments (speechStarted (this w)) (map type (dispatched (run ticks) w))
     = true.
Proof.
  cbv zeta. split; [|split].
  - rewrite decision_types.
    destruct (opens w) eqn:Ho.
    + rewrite (opens_resolves w Ho).
      destruct (mic_transition_cases w) as [-> | [-> | ->]];
        destruct (band w); reflexivity.
    + destruct (resolves w); cbn [app];
        destruct (mic_transition_cases w) as [-> | [-> | ->]];
        destruct (band w); cbn; rewrite ?verdict_terminal; reflexivity.
  - apply decision_speechStarted.
  - apply run_segments.
Qed.

(** C3, as the code has it: on the first signal tick of a new segment,
    [speechstart] is dispatched with the payload of the [signal] event of
    the tick, whose duration is the time since the previous value of
    [speechstartTime]; the tick sets [speechStarted], records
    [speechstartTime = now], and empties [speechVolumesList] before it
    appends the current volume. *)
Theorem segment_opening (w : World) (now : float) :
  opens w = true ->
  let m := sampleThresholdsDecision now in
  let l := length (heap w) in
  let d := signal_detail w now (now - speechstartTime (this w))%float in
  dispatched m w
  = (ev "speechstart" l d :: ev "signal" l d
     :: (if String.eqb (volumeState (this w)) "mute"
         then [ev "unmutedmic" l d] else []))
  /\ duration d = Some (now - speechstartTime (this w))%float
  /\ speechStarted (this (exec m w)) = true
  /\ speechstartTime (this (exec m w)) = now
  /\ speechVolumesList (this (exec m w)) = [VolumeMeter.volume (meter w)].
Proof.
  unfold opens. intros Ho. cbv zeta.
  unfold dispatched, exec. rewrite decision_eq.
  destruct (band w); try discriminate Ho. cbn in Ho.
  rewrite signal_eq. cbn [fst snd this].
  destruct w as [a m h]; destruct a; cbn in *.
  destruct speechStarted0; [discriminate Ho|].
  repeat split; cbn; case_if; reflexivity.
Qed.

(** The types of the events of a tick, in order. *)
Lemma timeout_callback_types (w : World) (t : Tick) :
  map type (dispatched (timeout_callback t) w)
  = ((if period_reached (this w) (incr (prerecordingItems (this w)))
         && negb (speechStarted (this w))
      then ["prespeechstart"] else [])
     ++ (if recordingEnabled (this w)
         then (if opens w then ["speechstart"] else [])
              ++ sampling_event (band w)
              :: mic_transition w
              ++ (if resolves w
                  then [verdict w (now_decision t - speechstartTime (this w))%float]
                  else [])
         else []))%list.
Proof.
  rewrite timeout_callback_dispatched, map_app. f_equal.
  - unfold dispatched. rewrite prerecording_eq. cbn [snd].
    case_if; reflexivity.
  - destruct (recordingEnabled (this w)); [|reflexivity].
    rewrite decision_types. rewrite prerecording_exec. reflexivity.
Qed.

(** C5, as the code has it: the events of a tick are, in this order, the
    heartbeat if it fires, then [speechstart] if the tick opens a
    segment, the sampling event, the mic transition if any, and the
    terminal event if the tick resolves the segment.  The sampling event
    comes before the mic transition and before [speechstop] and
    [speechabort]; [speechstart] comes before it. *)
Theorem tick_order (w : World) (t : Tick) :
  let types := map type (dispatched (timeout_callback t) w) in
  let duration := (now_decision t - speechstartTime (this w))%float in
  types
  = ((if period_reached (this w) (incr (prerecordingItems (this w)))
         && negb (speechStarted (this w))
      then ["prespeechstart"] else [])
     ++ (if recordingEnabled (this w)
         then (if opens w then ["speechstart"] else [])
              ++ sampling_event (band w)
              :: mic_transition w
              ++ (if resolves w then [verdict w duration] else [])
         else []))%list
  /\ sampling_first
       (List.filter (fun ty => negb (String.eqb ty "speechstart")) types) = true.
Proof.
  cbv zeta. split; [apply timeout_callback_types|].
  rewrite timeout_callback_types.
  destruct (period_reached _ _ && _); destruct (recordingEnabled (this w));
    try reflexivity;
    destruct (opens w); destruct (band w); reflexivity.
Qed.

(** The facts about one event of a classification. *)
Ltac event_facts :=
  repeat split; intros; first [reflexivity | congruence].

(** C10: every event of a classification carries the object that the
    tick has just built, the payload of its sampling event: its [event]
    field names the sampling event of the tick.  [speechstop] and
    [speechabort] occur on silence ticks only, with [items] equal to
    [maxSilenceItems]; [speechstart] on signal ticks only; [mutedmic] on
    mute ticks only.  The sampling event itself is among the events. *)
Theorem derived_events_share_payload (w : World) (now : float) :
  let events := dispatched (sampleThresholdsDecision now) w in
  Forall (fun e =>
            detail e = length (heap w)
            /\ event (payload e) = sampling_event (band w)
            /\ (is_terminal (type e) = true ->
                band w = SilenceBand
                /\ exists n, items (payload e) = Some n
                             /\ strict_eq n (maxSilenceItems (this w)) = true)
            /\ (type e = "speechstart" -> band w = SignalBand)
            /\ (type e = "unmutedmic" -> band w <> MuteBand)
            /\ (type e = "mutedmic" -> band w = MuteBand))
         events
  /\ Exists (fun e => type e = sampling_event (band w)) events.
Proof.
  cbv zeta. unfold dispatched. rewrite decision_eq.
  destruct (band w) eqn:Hb.
  - rewrite mute_eq. cbn [snd]. split.
    + case_if; repeat apply List.Forall_cons; try apply List.Forall_nil; cbn;
        event_facts.
    + apply Exists_cons_hd. reflexivity.
  - rewrite signal_eq. cbn [snd]. split.
    + destruct (speechStarted (this w)); case_if; cbn [app];
        repeat apply List.Forall_cons; try apply List.Forall_nil; cbn;
        event_facts.
    + destruct (speechStarted (this w)); cbn [app].
      * apply Exists_cons_hd. reflexivity.
      * apply Exists_cons_tl, Exists_cons_hd. reflexivity.
  - rewrite silence_eq. cbn [snd]. split.
    + apply List.Forall_cons; [|apply Forall_app; split].
      * cbn. event_facts.
      * case_if; repeat apply List.Forall_cons; try apply List.Forall_nil; cbn;
          event_facts.
      * destruct (reaches_max w) eqn:Hr; [|apply List.Forall_nil].
        unfold reaches_max in Hr. apply andb_true_iff in Hr as [_ Hr].
        apply List.Forall_cons; [|apply List.Forall_nil]. cbn.
        split; [reflexivity|].
        split; [repeat case_if; reflexivity|].
        split.
        { intros _. split; [reflexivity|].
          exists (incr (silenceItems (this w))).
          split; [repeat case_if; reflexivity | exact Hr]. }
        destruct (verdict_cases w (now - speechstartTime (this w))%float)
          as [-> | ->];
          event_facts.
    + apply Exists_cons_hd. reflexivity.
Qed.

(** What a classification leaves unchanged. *)
Lemma decision_frame (w : World) (now : float) :
  let a := this w in
  let a' := this (exec (sampleThresholdsDecision now) w) in
  prerecordingItems a' = prerecordingItems a
  /\ timeoutMilliSecs a' = timeoutMilliSecs a
  /\ prespeechstartMilliSecs a' = prespeechstartMilliSecs a
  /\ stopRunning a' = stopRunning a.
Proof.
  cbv zeta. unfold exec. rewrite decision_eq.
  destruct (band w);
    [rewrite mute_eq | rewrite signal_eq | rewrite silence_eq];
    cbn [fst snd this]; destruct w as [a m h]; destruct a; cbn;
    repeat case_if; repeat split; reflexivity.
Qed.

(** The heartbeat within a tick. *)
Lemma timeout_callback_heartbeat (w : World) (t : Tick) :
  let a := this w in
  let a' := this (exec (timeout_callback t) w) in
  let count := incr (prerecordingItems a) in
  emits_prespeechstart (dispatched (timeout_callback t) w)
  = period_reached a count && negb (speechStarted a)
  /\ prerecordingItems a' = (if period_reached a count then 0%float else count)
  /\ (forall c, period_reached a' c = period_reached a c).
Proof.
  cbv zeta. split; [|split].
  - unfold emits_prespeechstart.
    transitivity (existsb (fun ty => String.eqb ty "prespeechstart")
                    (map type (dispatched (timeout_callback t) w))).
    { induction (dispatched (timeout_callback t) w) as [|e l IH];
        [reflexivity|]. cbn. rewrite IH. reflexivity. }
    rewrite timeout_callback_types.
    destruct (period_reached _ _ && _); destruct (recordingEnabled (this w));
      try reflexivity;
      destruct (opens w); destruct (band w) eqn:Hb; cbn [app sampling_event];
      destruct (mic_transition_cases w) as [-> | [-> | ->]];
      destruct (resolves w); cbn;
      rewrite ?orb_false_r;
      try reflexivity;
      destruct (verdict_cases w (now_decision t - speechstartTime (this w))%float)
        as [-> | ->]; reflexivity.
  - rewrite timeout_callback_exec.
    destruct (recordingEnabled (this w)).
    + destruct (decision_frame (exec (prerecording (now_prerecording t)) w)
                  (now_decision t)) as [-> _].
      rewrite prerecording_exec. reflexivity.
    + rewrite prerecording_exec. reflexivity.
  - intros c. unfold period_reached. rewrite timeout_callback_exec.
    destruct (recordingEnabled (this w)).
    + destruct (decision_frame (exec (prerecording (now_prerecording t)) w)
                  (now_decision t)) as [_ [-> [-> _]]].
      rewrite prerecording_exec. reflexivity.
    + rewrite prerecording_exec. reflexivity.
Qed.

(** From a counter that holds [counts k], a later heartbeat has counted
    at most as many ticks as have elapsed, and they make up a period. *)
Lemma heartbeat_after (ticks : list Tick) :
  forall (w : World) (k j : nat) (ej : list Dispatched),
    prerecordingItems (this w) = counts k ->
    per_tick ticks w !! j = Some ej ->
    emits_prespeechstart ej = true ->
    exists k', 1 <= k' <= k + j + 1
               /\ period_reached (this w) (counts k') = true.
Proof.
  induction ticks as [|t rest IH]; intros w k j ej Hk Hj He;
    [discriminate Hj|].
  cbn [per_tick] in Hj.
  set (w1 := exec (onaudioprocess (blocks t)) w) in *.
  assert (Hthis : this w1 = this w) by reflexivity.
  destruct (timeout_callback_heartbeat w1 t) as [Hem [Hcnt Hper]].
  rewrite Hthis in Hem, Hcnt, Hper.
  destruct j as [|j'].
  - cbn [lookup list_lookup] in Hj. injection Hj as <-. rewrite Hem in He.
    apply andb_true_iff in He as [He _]. rewrite Hk in He.
    exists (S k). split; [lia | exact He].
  - cbn [lookup list_lookup] in Hj. destruct (negb _); [|discriminate Hj].
    destruct (period_reached (this w) (incr (prerecordingItems (this w)))).
    + destruct (IH _ 0 j' ej Hcnt Hj He) as [k' [Hle Hp]].
      exists k'. rewrite <- Hper. split; [lia | exact Hp].
    + rewrite Hk in Hcnt.
      destruct (IH _ (S k) j' ej Hcnt Hj He) as [k' [Hle Hp]].
      exists k'. rewrite <- Hper. split; [lia | exact Hp].
Qed.

(** Two heartbeats of a run are a period apart. *)
Lemma heartbeat_apart (ticks : list Tick) :
  forall (w : World) (i j : nat) (ei ej : list Dispatched),
    i < j ->
    per_tick ticks w !! i = Some ei ->
    per_tick ticks w !! j = Some ej ->
    emits_prespeechstart ei = true ->
    emits_prespeechstart ej = true ->
    exists k, 1 <= k <= j - i /\ period_reached (this w) (counts k) = true.
Proof.
  induction ticks as [|t rest IH]; intros w i j ei ej Hij Hi Hj Hei Hej;
    [discriminate Hi|].
  cbn [per_tick] in Hi, Hj.
  set (w1 := exec (onaudioprocess (blocks t)) w) in *.
  assert (Hthis : this w1 = this w) by reflexivity.
  destruct (timeout_callback_heartbeat w1 t) as [Hem [Hcnt Hper]].
  rewrite Hthis in Hem, Hcnt, Hper.
  destruct j as [|j']; [lia|].
  cbn [lookup list_lookup] in Hj. destruct (negb _); [|discriminate Hj].
  destruct i as [|i'].
  - cbn [lookup list_lookup] in Hi. injection Hi as <-. rewrite Hem in Hei.
    apply andb_true_iff in Hei as [Hei _]. rewrite Hei in Hcnt.
    destruct (heartbeat_after rest _ 0 j' ej Hcnt Hj Hej) as [k' [Hle Hp]].
    exists k'. rewrite <- Hper. split; [lia | exact Hp].
  - cbn [lookup list_lookup] in Hi.
    destruct (IH _ i' j' ei ej ltac:(lia) Hi Hj Hei Hej) as [k' [Hle Hp]].
    exists k'. rewrite <- Hper. split; [lia | exact Hp].
Qed.

(** C8: the heartbeat dispatches [prespeechstart] exactly when its counter
    reaches the period and no speech is active, and it resets the counter
    whenever the counter reaches the period, with or without an event.
    Between two ticks of a run that dispatch [prespeechstart], the counter
    has started again from 0: it has counted [k] ticks, no more than have
    elapsed, and [k] ticks make up a period.  So the two ticks are at least
    a window apart: as many ticks as it takes to make up a period. *)
Theorem heartbeat_once_per_period (w : World) (now : float)
    (ticks : list Tick) (i j : nat) (ei ej : list Dispatched) :
  let a := this w in
  let count := incr (prerecordingItems a) in
  map type (dispatched (prerecording now) w)
  = (if period_reached a count && negb (speechStarted a)
     then ["prespeechstart"] else [])
  /\ prerecordingItems (this (exec (prerecording now) w))
     = (if period_reached a count then 0%float else count)
  /\ (i < j ->
      per_tick ticks w !! i = Some ei ->
      per_tick ticks w !! j = Some ej ->
      emits_prespeechstart ei = true ->
      emits_prespeechstart ej = true ->
      (exists k, 1 <= k <= j - i /\ period_reached a (counts k) = true)
      /\ (forall n, window_at_least a n -> n <= j - i)).
Proof.
  cbv zeta. split; [|split].
  - unfold dispatched. rewrite prerecording_eq. cbn [snd].
    case_if; reflexivity.
  - rewrite prerecording_exec. reflexivity.
  - intros Hij Hi Hj Hei Hej.
    destruct (heartbeat_apart ticks w i j ei ej Hij Hi Hj Hei Hej)
      as [k [Hk Hp]].
    split; [exists k; split; assumption|].
    intros n Hn. destruct (Nat.le_gt_cases n (j - i)) as [Hle | Hgt];
      [exact Hle|].
    rewrite (Hn k) in Hp by lia. discriminate Hp.
Qed.

Lemma decision_has_volumes (w : World) (now : float) :
  has_volumes w -> has_volumes (exec (sampleThresholdsDecision now) w).
Proof.
  unfold has_volumes, exec. rewrite decision_eq.
  destruct (band w);
    [rewrite mute_eq | rewrite signal_eq | rewrite silence_eq];
    cbn [fst snd this]; destruct w as [a m h]; destruct a; cbn.
  - case_if; exact (fun Hw => Hw).
  - intros _. destruct speechStarted0; case_if; cbn; intros _ Hnil;
      first [discriminate Hnil | destruct speechVolumesList0; discriminate Hnil].
  - intros Hw. unfold reaches_max. cbn.
    destruct speechStarted0; cbn; repeat case_if; cbn; 
      first [exact Hw | discriminate].
Qed.

Lemma timeout_callback_has_volumes (w : World) (t : Tick) :
  has_volumes w -> has_volumes (exec (timeout_callback t) w).
Proof.
  intros Hw. rewrite timeout_callback_exec.
  assert (Hp : has_volumes (exec (prerecording (now_prerecording t)) w)).
  { unfold has_volumes. rewrite prerecording_exec. exact Hw. }
  destruct (recordingEnabled (this w)); [apply decision_has_volumes|];
    exact Hp.
Qed.

Lemma run_has_volumes (ticks : list Tick) (w : World) :
  has_volumes w -> has_volumes (exec (run ticks) w).
Proof.
  revert w. induction ticks as [|t rest IH]; intros w Hw; [exact Hw|].
  rewrite run_cons_exec.
  assert (H2 : has_volumes (exec (timeout_callback t)
                              (exec (onaudioprocess (blocks t)) w)))
    by (apply timeout_callback_has_volumes; exact Hw).
  destruct (negb _); [apply IH|]; exact H2.
Qed.

(** C9: after every run of a new detector, if speech is active then
    [speechVolumesList] is not empty; and when the classification of the
    next tick resolves the segment, the list that it averages is not
    empty. *)
Theorem segment_volumes_nonempty (meter : VolumeMeter.VolumeMeter)
    (config : AudioDetectionConfig) (ticks : list Tick)
    (next : list (list float * (nat -> float))) (now : float) :
  let w_end := exec (start ticks) (new_AudioDetection meter config) in
  let w_next := exec (prerecording now) (exec (onaudioprocess next) w_end) in
  (speechStarted (this w_end) = true -> speechVolumesList (this w_end) <> [])
  /\ (resolves w_next = true -> speechVolumesList (this w_next) <> []).
Proof.
  cbv zeta.
  assert (Hend : has_volumes (exec (start ticks) (new_AudioDetection meter config))).
  { unfold start. rewrite exec_bind. apply run_has_volumes.
    intros Hs. discriminate Hs. }
  split; [exact Hend|].
  rewrite prerecording_exec. unfold resolves, reaches_max. cbn [this].
  intros Hr. apply andb_true_iff in Hr as [_ Hr].
  apply andb_true_iff in Hr as [Hr _].
  apply Hend. exact Hr.
Qed.

End WithConstants.

Local Open Scope float_scope.

(** C3, as the specification has it, fails: on the first signal tick of a
    new detector, read at time 1000, [speechstart] carries the duration
    1000, not 0. *)
Lemma speechstart_duration_counterexample :
  opens w_loud = true
  /\ ~ (forall e,
          In e (dispatched (sampleThresholdsDecision (K := K0) (H := H0) 1000) w_loud) ->
          type e = "speechstart" -> duration (payload e) = Some 0).
Proof.
  split; [vm_compute; reflexivity|].
  intros Hc.
  specialize (Hc (ev "speechstart" 0%nat (signal_detail w_loud 1000 1000))).
  assert (Hd : Some 1000 = Some 0).
  { apply Hc; [vm_compute; left; reflexivity | reflexivity]. }
  apply (f_equal (fun o => match o with Some x => x =? 0 | None => true end)) in Hd.
  vm_compute in Hd. discriminate Hd.
Qed.

(** The opening of a segment by a new detector that reads the volume 0.5
    at time 1000. *)
Lemma segment_opening_witness :
  let m := sampleThresholdsDecision (K := K0) (H := H0) 1000 in
  let d := signal_detail w_loud 1000 (1000 - speechstartTime (this w_loud)) in
  dispatched m w_loud
  = [ev "speechstart" 0%nat d; ev "signal" 0%nat d; ev "unmutedmic" 0%nat d]
  /\ duration d = Some (1000 - speechstartTime (this w_loud))
  /\ speechStarted (this (exec m w_loud)) = true
  /\ speechstartTime (this (exec m w_loud)) = 1000
  /\ speechVolumesList (this (exec m w_loud)) = [VolumeMeter.volume (meter w_loud)].
Proof.
  apply (segment_opening (K := K0) (H := H0) w_loud 1000).
  vm_compute. reflexivity.
Defined.

(** C5, as the specification has it, fails: on the first signal tick of a
    new detector, [speechstart] is dispatched before [signal]. *)
Lemma tick_order_counterexample :
  let types :=
    map type (dispatched (timeout_callback (K := K0) (H := H0) (tick_at 0.5 1000)) w_loud) in
  types = ["speechstart"; "signal"; "unmutedmic"]
  /\ sampling_first types = false.
Proof. vm_compute. split; reflexivity. Qed.

(** Thirteen ticks of silence: the heartbeats of the sixth and of the
    twelfth tick are six ticks apart, a period of 600 ms. *)
Lemma heartbeat_once_per_period_witness :
  (exists k, (1 <= k <= 11 - 5)%nat /\ period_reached (this w0) (counts k) = true)
  /\ (forall n, window_at_least (this w0) n -> (n <= 11 - 5)%nat).
Proof.
  refine (proj2 (proj2 (heartbeat_once_per_period (K := K0) (H := H0)
                          w0 0 thirteen_silent_ticks 5%nat 11%nat
                          (default [] (per_tick (K := K0) (H := H0)
                                         thirteen_silent_ticks w0 !! 5%nat))
                          (default [] (per_tick (K := K0) (H := H0)
                                         thirteen_silent_ticks w0 !! 11%nat))))
            _ _ _ _ _).
  - lia.
  - vm_compute. reflexivity.
  - vm_compute. reflexivity.
  - vm_compute. reflexivity.
  - vm_compute. reflexivity.
Defined.

(** After five ticks of signal and nine of silence speech is active, and
    the tenth tick of silence resolves the segment. *)
Lemma segment_volumes_nonempty_witness :
  let w_end := exec (start (K := K0) (H := H0) speech_then_nine_silences)
                 (new_AudioDetection (K := K0) meter1 empty_config) in
  let w_next := exec (prerecording 2400)
                  (exec (onaudioprocess [([0.1], clock0)]) w_end) in
  speechVolumesList (this w_end) <> [] /\ speechVolumesList (this w_next) <> [].
Proof.
  cbv zeta.
  pose proof (segment_volumes_nonempty (K := K0) (H := H0) meter1 empty_config
                speech_then_nine_silences [([0.1], clock0)] 2400) as Hw.
  cbv zeta in Hw. destruct Hw as [Hend Hnext].
  split; [apply Hend | apply Hnext]; vm_compute; reflexivity.
Defined.

(** C2: the constructor computes [maxSilenceItems] from
    [SAMPLE_POLLING_MSECS], whatever the configuration.  With a tick of
    50 ms where the default is 100 ms, and 1000 ms of silence to wait for,
    it is 10 where the tick interval in use gives 20: a speech of 400 ms is
    resolved 500 ms after its last signal, at time 1850, and aborted. *)
Theorem maxSilenceItems_ignores_tick_interval :
  (forall (K : Constants) (config : AudioDetectionConfig),
      maxSilenceItems (constructor config)
      = Math_round (MAX_INTERSPEECH_SILENCE_MSECS / SAMPLE_POLLING_MSECS))
  /\ (let a := constructor (K := K0) config50 in
      timeoutMilliSecs a = 50
      /\ maxSilenceItems a = 10
      /\ Math_round (MAX_INTERSPEECH_SILENCE_MSECS (Constants := K0)
                     / timeoutMilliSecs a) = 20)
  /\ map summary
       (List.filter (fun e => is_terminal (type e))
          (dispatched (start (K := K0) (H := H0) speech_at_50ms) w50))
     = [("speechabort", 1850,
         Some "signal duration (#) < MIN_SIGNAL_DURATION (#)")].
Proof.
  split; [reflexivity|]. vm_compute. repeat split; reflexivity.
Qed.

(** C7, as the specification has it, fails: a configuration in which
    [maxSilenceItems] rounds to 0 and [muteVolume >= speakingMinVolume] is
    not rejected. *)
Lemma misconfiguration_counterexample :
  let a := constructor (K := K1) config_crossed in
  strict_eq (maxSilenceItems a) 0 = true
  /\ ge (muteVolume a) (speakingMinVolume a) = true
  /\ ~ (exists error, construct (K := K1) meter0 config_crossed = Throw error).
Proof.
  cbv zeta. split; [vm_compute; reflexivity|].
  split; [vm_compute; reflexivity|].
  intros [error Herr]. discriminate Herr.
Qed.

(** C7, as the code has it: the construction completes normally for every
    configuration and all constants, also when [maxSilenceItems] rounds to
    0 or [muteVolume >= speakingMinVolume]; no configuration error is
    raised, and the instance holds the thresholds as they were given. *)
Theorem construction_accepts_every_configuration (K : Constants)
    (meter : VolumeMeter.VolumeMeter) (config : AudioDetectionConfig) :
  exists w,
    construct meter config = Normal w
    /\ (forall error, construct meter config <> Throw error)
    /\ muteVolume (this w) = default VOLUME_MUTE (cfg_muteVolume config)
    /\ speakingMinVolume (this w) = default VOLUME_SIGNAL (cfg_speakingMinVolume config).
Proof.
  exists (new_AudioDetection meter config).
  split; [reflexivity|]. split; [intros error Herr; discriminate Herr|].
  split; reflexivity.
Qed.

End Classifier.

(* ===================================================================== *)
(** * The volume meter *)
(* ===================================================================== *)

Module Meter.

Import JS IEEE FloatFacts VolumeMeter Spec Examples.
Local Open Scope float_scope.

(** The loop sums the squares, from the left. *)
Lemma sum_squares_sum (clk : nat -> float) (buf : list float) :
  forall (i : nat) (sum : float) (m : VolumeMeter),
    fst (sum_squares clk i buf sum m)
    = fold_left (fun s x => s + x * x) buf sum.
Proof.
  induction buf as [|x rest IH]; intros i sum m; [reflexivity|].
  cbn [sum_squares fold_left]. apply IH.
Qed.

(** The loop changes nothing but the clip indicator. *)
Lemma sum_squares_meter (clk : nat -> float) (buf : list float) :
  forall (i : nat) (sum : float) (m : VolumeMeter),
    let m' := snd (sum_squares clk i buf sum m) in
    volume m' = volume m /\ averaging m' = averaging m
    /\ clipLevel m' = clipLevel m /\ clipLag m' = clipLag m.
Proof.
  induction buf as [|x rest IH]; intros i sum m; [repeat split|].
  cbn [sum_squares]. cbv zeta.
  destruct (IH (S i) (sum + x * x)
              (if ge (Math_abs x) (clipLevel m) then set_clip true (clk i) m else m))
    as [Hv [Ha [Hl Hg]]].
  rewrite Hv, Ha, Hl, Hg. destruct (ge _ _); repeat split.
Qed.

(** The update of the volume, for every block. *)
Lemma volumeAudioProcess_volume (buf : list float) (clk : nat -> float)
    (m : VolumeMeter) :
  volume (volumeAudioProcess buf clk m)
  = Math_max (rms buf) (volume m * averaging m).
Proof.
  unfold volumeAudioProcess, rms, sumOfSquares, rms_of.
  pose proof (sum_squares_sum clk buf 0%nat 0 m) as Hs.
  pose proof (sum_squares_meter clk buf 0%nat 0 m) as Hm.
  destruct (sum_squares clk 0 buf 0 m) as [sum m1].
  cbn [fst snd] in Hs, Hm. destruct Hm as [Hv [Ha _]].
  cbn [volume set_volume]. rewrite Hs, Hv, Ha. reflexivity.
Qed.

(** The sum of the squares of numbers is a number that is not negative. *)
Lemma sum_nonneg (buf : list float) :
  forall sum : float,
    SFnonneg (Prim2SF sum) = true ->
    forallb is_number buf = true ->
    SFnonneg (Prim2SF (fold_left (fun s x => s + x * x) buf sum)) = true.
Proof.
  induction buf as [|x rest IH]; intros sum Hsum Hbuf; [exact Hsum|].
  cbn [forallb] in Hbuf. apply andb_true_iff in Hbuf as [Hx Hrest].
  cbn [fold_left]. apply IH; [|exact Hrest].
  rewrite FloatAxioms.add_spec, FloatAxioms.mul_spec. apply SFadd_nonneg; [exact Hsum|].
  apply SFmul_square_nonneg.
  unfold is_number in Hx. rewrite is_nan_spec in Hx.
  destruct (SFis_nan (Prim2SF x)); [discriminate Hx | reflexivity].
Qed.

(** The root mean square of a block of numbers that is not empty is a
    number that is not negative. *)
Lemma rms_nonneg (buf : list float) :
  (0 < length buf)%nat ->
  (Z.of_nat (length buf) < 2 ^ 53)%Z ->
  forallb is_number buf = true ->
  SFnonneg (Prim2SF (rms buf)) = true.
Proof.
  intros Hlen Hbound Hbuf. unfold rms, Math_sqrt, sumOfSquares.
  rewrite FloatAxioms.sqrt_spec, FloatAxioms.div_spec.
  apply SFsqrt_nonneg, SFdiv_nonneg.
  - apply sum_nonneg; [reflexivity | exact Hbuf].
  - apply of_length_positive; assumption.
Qed.

Lemma SFnonneg_number (x : float) :
  SFnonneg (Prim2SF x) = true -> is_nan x = false.
Proof.
  rewrite is_nan_spec. destruct (Prim2SF x); cbn; congruence.
Qed.

(** [Math.max] of two numbers is one of them, and not below either. *)
Lemma Math_max_number (a b : float) :
  is_nan a = false -> is_nan b = false ->
  (Math_max a b = a \/ Math_max a b = b)
  /\ (a <=? Math_max a b) = true /\ (b <=? Math_max a b) = true.
Proof.
  intros Ha Hb. unfold Math_max. rewrite Ha, Hb. cbn [orb].
  destruct (a <? b) eqn:Hab.
  - split; [right; reflexivity|].
    split; [apply ltb_leb; exact Hab | apply leb_refl; exact Hb].
  - destruct (b <? a) eqn:Hba.
    + split; [left; reflexivity|].
      split; [apply leb_refl; exact Ha | apply ltb_leb; exact Hba].
    + pose proof (not_ltb_leb a b Ha Hb Hab) as Hle1.
      pose proof (not_ltb_leb b a Hb Ha Hba) as Hle2.
      destruct (classify a);
        (split; [auto|]); split;
        first [exact Hle1 | exact Hle2 | apply leb_refl; assumption].
Qed.

(** The product of two finite numbers is a number: so is
    [volume * averaging] for a finite volume and a finite factor. *)
Lemma is_infinity_spec (x : float) :
  is_infinity x
  = match Prim2SF x with S754_infinity _ => true | _ => false end.
Proof.
  unfold is_infinity. rewrite FloatAxioms.eqb_spec, FloatAxioms.abs_spec.
  change (Prim2SF infinity) with (S754_infinity false).
  destruct (Prim2SF x) as [s|s| |s mx ex]; reflexivity.
Qed.

Lemma finite_product_number (a b : float) :
  is_finite a = true -> is_finite b = true -> is_number (a * b) = true.
Proof.
  unfold is_finite, is_number.
  rewrite !is_nan_spec, !is_infinity_spec, FloatAxioms.mul_spec.
  destruct (Prim2SF a) as [sa|sa| |sa ma ea];
    destruct (Prim2SF b) as [sb|sb| |sb mb eb]; cbn;
    intros Ha Hb; try discriminate; try reflexivity.
  pose proof (binary_round_aux_signed prec emax (xorb sa sb)
                (Z.pos (ma * mb)) (ea + eb) loc_Exact ltac:(lia)) as Hs.
  destruct (binary_round_aux _ _ _ _ _ _); first [reflexivity | contradiction].
Qed.

(** C6: after a block that is not empty, the volume of the meter is
    [max(rms, volume * averaging)], for the root mean square of the block
    and the volume before.  When the samples are numbers and
    [volume * averaging] is one, the new volume is a number, not below
    [volume * averaging] and not below 0. *)
Theorem smoothed_volume_update (m : VolumeMeter) (buf : list float)
    (clk : nat -> float) :
  (0 < length buf)%nat ->
  (Z.of_nat (length buf) < 2 ^ 53)%Z ->
  forallb is_number buf = true ->
  is_number (volume m * averaging m) = true ->
  let m' := volumeAudioProcess buf clk m in
  volume m' = Math_max (rms buf) (volume m * averaging m)
  /\ is_number (volume m') = true
  /\ le (volume m * averaging m) (volume m') = true
  /\ le 0 (volume m') = true.
Proof.
  intros Hlen Hbound Hbuf Hprev. cbv zeta.
  rewrite volumeAudioProcess_volume.
  pose proof (rms_nonneg buf Hlen Hbound Hbuf) as Hrms.
  pose proof (SFnonneg_number _ Hrms) as Hnum.
  unfold is_number in Hprev. apply negb_true_iff in Hprev.
  destruct (Math_max_number _ _ Hnum Hprev) as [Hor [Hle1 Hle2]].
  split; [reflexivity|]. split; [|split].
  - unfold is_number. apply negb_true_iff.
    destruct Hor as [-> | ->]; assumption.
  - exact Hle2.
  - unfold le. rewrite leb_zero_spec.
    apply (SFleb_nonneg (Prim2SF (rms buf))); [exact Hrms|].
    rewrite <- FloatAxioms.leb_spec. exact Hle1.
Qed.

(** A meter at the volume 1 that processes a block of root mean square
    0.5. *)
Lemma smoothed_volume_update_witness :
  let m := volumeAudioProcess [1] clock0 meter0 in
  let m' := volumeAudioProcess [0.5; -0.5] clock0 m in
  volume m' = Math_max (rms [0.5; -0.5]) (volume m * averaging m)
  /\ is_number (volume m') = true
  /\ le (volume m * averaging m) (volume m') = true
  /\ le 0 (volume m') = true.
Proof.
  apply (smoothed_volume_update (volumeAudioProcess [1] clock0 meter0)
           [0.5; -0.5] clock0).
  - cbn. lia.
  - vm_compute. reflexivity.
  - vm_compute. reflexivity.
  - vm_compute. reflexivity.
Defined.

(** The volume after an empty block. *)
Lemma empty_block_nan (m : VolumeMeter) (clk : nat -> float) :
  volume (volumeAudioProcess [] clk m) = nan.
Proof.
  rewrite volumeAudioProcess_volume. change (rms []) with nan. reflexivity.
Qed.

(** C4, as the specification has it, fails: for an empty block the root
    mean square is not 0, and the volume of a new meter does not stay a
    number, let alone one that is not negative. *)
Lemma empty_block_counterexample :
  let m' := volumeAudioProcess [] clock0 meter0 in
  strict_eq (rms []) 0 = false
  /\ is_number (volume m') = false
  /\ le 0 (volume m') = false.
Proof. vm_compute. repeat split; reflexivity. Qed.

(** C4, as the code has it: [volumeAudioProcess] has no guard for a block
    of length 0.  It divides the sum 0 by the length 0, the root mean
    square is NaN, and so is the volume of the meter afterwards, whatever
    it was before; nothing else changes. *)
Theorem empty_block_gives_NaN (m : VolumeMeter) (clk : nat -> float) :
  let m' := volumeAudioProcess [] clk m in
  rms [] = nan
  /\ is_nan (0 / of_length (length (@nil float))) = true
  /\ volume m' = nan
  /\ m' = set_volume nan m.
Proof.
  cbv zeta.
  assert (Hv : volume (volumeAudioProcess [] clk m) = nan).
  { rewrite volumeAudioProcess_volume.
    change (rms []) with nan. reflexivity. }
  split; [reflexivity|]. split; [reflexivity|]. split; [exact Hv|].
  unfold volumeAudioProcess in *. cbn [sum_squares length] in *.
  cbn [volume set_volume] in Hv. rewrite Hv. reflexivity.
Qed.

End Meter.

(* ===================================================================== *)
(** * Scenarios *)
(* ===================================================================== *)

Module Scenarios.

Import JS Events AudioDetection Spec Examples.
Local Open Scope string_scope.
Local Open Scope float_scope.

(** [Math.round] rounds ties towards +infinity and keeps the sign of a
    negative number that rounds to zero; [Math.max] prefers [+0] to [-0] and
    gives NaN as soon as an argument is NaN. *)
Example Math_round_values :
  (Math_round 2.5, Math_round (-2.5), Math_round 0.49999999999999994,
   Math_round (-0.3), Math_round (1000 / 100), Math_round (10 / 100),
   Math_round (1 / 0), Math_round 3.7, Math_round (-3.7))
  = (3, -2, 0, -0, 10, 0, infinity, 4, -4).
Proof. vm_compute. reflexivity. Qed.

Example Math_max_values :
  (Math_max 0 (-0), Math_max (-0) 0, Math_max (-0) (-0), Math_max nan 1,
   Math_max 2 3, Math_max 3 2)
  = (0, 0, -0, nan, 3, 3).
Proof. vm_compute. reflexivity. Qed.

(** A block of three samples, one of them clipped at sample 2: the root
    mean square is that of the block, and the clip is recorded. *)
Example meter_block :
  let m := VolumeMeter.volumeAudioProcess [0.5; -0.5; 1]
             (fun i => of_length i) meter0 in
  (VolumeMeter.volume m, VolumeMeter.clipping m, VolumeMeter.lastClip m)
  = (0.70710678118654757, true, 2).
Proof. vm_compute. reflexivity. Qed.

(** Five ticks of signal, then eleven of silence: one [speechstart] on the
    first signal tick, five [signal], and [speechstop] on the tenth tick of
    silence, neither before nor after. *)
Example speech_is_accepted :
  map type (dispatched (start (K := K0) (H := H0) speech_then_silence) w0)
  = ["speechstart"; "signal"; "unmutedmic"; "signal"; "signal"; "signal";
     "signal"; "silence"; "silence"; "silence"; "silence"; "silence";
     "silence"; "silence"; "silence"; "silence"; "silence"; "speechstop";
     "silence"].
Proof. vm_compute. reflexivity. Qed.

(** Two ticks of signal: the segment is aborted for its duration. *)
Example short_speech_is_aborted :
  map summary
    (List.filter (fun e => is_terminal (type e))
       (dispatched (start (K := K0) (H := H0) short_speech) w0))
  = [("speechabort", 2100, Some "signal duration (#) < MIN_SIGNAL_DURATION (#)")].
Proof. vm_compute. reflexivity. Qed.

(** A signal whose average is below [MIN_AVERAGE_SIGNAL_VOLUME]: the
    segment is long enough, and aborted for its volume. *)
Example quiet_speech_is_aborted :
  map summary
    (List.filter (fun e => is_terminal (type e))
       (dispatched (start (K := K2) (H := H0) quiet_speech)
          (new_AudioDetection (K := K2) meter1 empty_config)))
  = [("speechabort", 2400,
      Some "signal average volume (#) < MIN_AVERAGE_SIGNAL_VOLUME (#)")].
Proof. vm_compute. reflexivity. Qed.

(** The [silence] event of the tick that aborts and the [speechabort] of
    that tick carry one object: [silence] is dispatched before the message
    is assigned, and the object has the message afterwards. *)
Example abort_message_is_shared :
  let w := exec (start (K := K0) (H := H0) short_speech) w0 in
  map (fun e => (type e, detail e, abort (payload e)))
    (List.filter (fun e => Nat.eqb (detail e) 23)
       (dispatched (start (K := K0) (H := H0) short_speech) w0))
  = [("silence", 23%nat, None);
     ("speechabort", 23%nat, Some "signal duration (#) < MIN_SIGNAL_DURATION (#)")]
  /\ (abort <$> heap w !! 23%nat)
     = Some (Some "signal duration (#) < MIN_SIGNAL_DURATION (#)").
Proof. vm_compute. split; reflexivity. Qed.

(** A new detector is in the state 'mute': five ticks below [muteVolume]
    give five [mute] events and no mic transition. *)
Example constant_mute :
  map type (dispatched (start (K := K0) (H := H0) five_mute_ticks) w0)
  = ["mute"; "mute"; "mute"; "mute"; "mute"].
Proof. vm_compute. reflexivity. Qed.

(** Thirteen ticks of silence with a period of six ticks: the heartbeat at
    the sixth and at the twelfth. *)
Example heartbeat_every_six_ticks :
  map emits_prespeechstart
    (per_tick (K := K0) (H := H0) thirteen_silent_ticks w0)
  = [false; false; false; false; false; true;
     false; false; false; false; false; true; false].
Proof. vm_compute. reflexivity. Qed.

End Scenarios.

(* ===================================================================== *)
(** * Behaviour of the meter *)
(* ===================================================================== *)

Module MeterBehaviour.

Import JS IEEE FloatFacts VolumeMeter Spec Behaviour Examples.
Local Open Scope float_scope.

(** The clip indicator after the loop. *)
Lemma sum_squares_clip (clk : nat -> float) (buf : list float) :
  forall (i : nat) (sum : float) (m : VolumeMeter),
    let m' := snd (sum_squares clk i buf sum m) in
    clipping m' = clipping m || existsb (clips (clipLevel m)) buf
    /\ lastClip m'
       = default (lastClip m) (last_clip_time clk (clipLevel m) i buf).
Proof.
  induction buf as [|x rest IH]; intros i sum m; cbv zeta.
  - cbn. rewrite orb_false_r. split; reflexivity.
  - cbn [sum_squares existsb last_clip_time].
    destruct (IH (S i) (sum + x * x)
                (if ge (Math_abs x) (clipLevel m) then set_clip true (clk i) m else m))
      as [Hc Hl].
    rewrite Hc, Hl. unfold clips at 2 4.
    destruct (ge (Math_abs x) (clipLevel m)) eqn:Hx; cbn [orb].
    + cbn [clipping lastClip clipLevel set_clip]. rewrite orb_true_r.
      split; [reflexivity|].
      destruct (last_clip_time clk (clipLevel m) (S i) rest); reflexivity.
    + split; [reflexivity|].
      destruct (last_clip_time clk (clipLevel m) (S i) rest); reflexivity.
Qed.

(** The clip indicator after a block. *)
Lemma block_clip (buf : list float) (clk : nat -> float) (m : VolumeMeter) :
  let m' := volumeAudioProcess buf clk m in
  clipping m' = clipping m || existsb (clips (clipLevel m)) buf
  /\ lastClip m'
     = default (lastClip m) (last_clip_time clk (clipLevel m) 0 buf)
  /\ clipLevel m' = clipLevel m /\ averaging m' = averaging m
  /\ clipLag m' = clipLag m.
Proof.
  cbv zeta. unfold volumeAudioProcess.
  pose proof (sum_squares_clip clk buf 0%nat 0 m) as Hc.
  pose proof (Meter.sum_squares_meter clk buf 0%nat 0 m) as Hm.
  destruct (sum_squares clk 0 buf 0 m) as [sum m1].
  cbn [snd] in Hc, Hm. destruct Hc as [Hc Hl]. destruct Hm as [_ [Ha [Hv Hg]]].
  cbn [clipping lastClip clipLevel averaging clipLag set_volume].
  repeat split; assumption.
Qed.

(** X1: a block sets the clip indicator when one of its samples reaches
    [clipLevel] in absolute value, and never clears it; [lastClip] becomes
    the clock at the last such sample, and stays as it is when there is
    none.  The parameters of the meter do not change. *)
Theorem block_sets_clip_indicator (buf : list float) (clk : nat -> float)
    (m : VolumeMeter) :
  let m' := volumeAudioProcess buf clk m in
  clipping m' = clipping m || existsb (clips (clipLevel m)) buf
  /\ lastClip m'
     = default (lastClip m) (last_clip_time clk (clipLevel m) 0 buf)
  /\ clipLevel m' = clipLevel m /\ averaging m' = averaging m
  /\ clipLag m' = clipLag m.
Proof. exact (block_clip buf clk m). Qed.

Lemma last_clip_time_clips (clk : nat -> float) (level : float) (buf : list float) :
  forall (i : nat) (t : float),
    last_clip_time clk level i buf = Some t -> existsb (clips level) buf = true.
Proof.
  induction buf as [|x rest IH]; intros i t Ht; [discriminate Ht|].
  cbn [last_clip_time existsb] in *.
  destruct (last_clip_time clk level (S i) rest) as [t'|] eqn:Hr.
  - rewrite (IH (S i) t' Hr). apply orb_true_r.
  - destruct (clips level x); [reflexivity | discriminate Ht].
Qed.

(** X2: after a block in which a sample clips, the last one at the clock
    [t], [checkClipping()] answers true for as long as the clock has not
    passed [t + clipLag], and false afterwards; its answer is the indicator
    that it leaves in the meter. *)
Theorem clip_indicator_lasts_clipLag (buf : list float) (clk : nat -> float)
    (m : VolumeMeter) (t now : float) :
  last_clip_time clk (clipLevel m) 0 buf = Some t ->
  let m' := volumeAudioProcess buf clk m in
  fst (checkClipping now m') = negb (lt (t + clipLag m) now)
  /\ clipping (snd (checkClipping now m')) = fst (checkClipping now m').
Proof.
  intros Ht. cbv zeta.
  destruct (block_clip buf clk m) as [Hc [Hl [_ [_ Hg]]]].
  rewrite Ht in Hl. change (default (lastClip m) (Some t)) with t in Hl.
  rewrite (last_clip_time_clips _ _ _ _ _ Ht), orb_true_r in Hc.
  unfold checkClipping. rewrite Hc, Hl, Hg. cbn [negb].
  destruct (lt (t + clipLag m) now); cbn [fst snd clipping set_clipping negb];
    split; first [reflexivity | exact Hc].
Qed.

(** A meter that processes [0.5; 1; 0.25] with a clock that gives the index
    of the sample: the sample 1 clips at the clock 1. *)
Lemma clip_indicator_lasts_clipLag_witness :
  let m' := volumeAudioProcess [0.5; 1; 0.25] of_length meter0 in
  fst (checkClipping 700 m') = negb (lt (1 + clipLag meter0) 700)
  /\ clipping (snd (checkClipping 700 m')) = fst (checkClipping 700 m').
Proof.
  apply (clip_indicator_lasts_clipLag [0.5; 1; 0.25] of_length meter0 1 700).
  vm_compute. reflexivity.
Defined.

(** Once the indicator is off, [checkClipping()] leaves it off. *)
Lemma checks_off (times : list float) :
  forall m : VolumeMeter,
    clipping m = false -> Forall (fun r => r = false) (checks times m).
Proof.
  induction times as [|now rest IH]; intros m Hm; [apply List.Forall_nil|].
  cbn [checks]. unfold checkClipping. rewrite Hm. cbn [negb].
  apply List.Forall_cons; [reflexivity | apply IH; exact Hm].
Qed.

(** X3: in a sequence of calls of [checkClipping()] with no block in
    between, an answer false is final: every later call answers false,
    whatever the clock. *)
Theorem checkClipping_off_is_final (times : list float) (m : VolumeMeter)
    (i j : nat) (b : bool) :
  (i <= j)%nat ->
  checks times m !! i = Some false ->
  checks times m !! j = Some b ->
  b = false.
Proof.
  revert m i j. induction times as [|now rest IH]; intros m i j Hij Hi Hj;
    [discriminate Hi|].
  cbn [checks] in Hi, Hj.
  destruct (checkClipping now m) as [r m'] eqn:Hc.
  destruct i as [|i'].
  - cbn [lookup list_lookup] in Hi. injection Hi as ->.
    assert (Hoff : clipping m' = false).
    { unfold checkClipping in Hc. destruct (clipping m) eqn:Hm; cbn [negb] in Hc.
      - cbv zeta in Hc. injection Hc as Hr <-. exact Hr.
      - injection Hc as <-. exact Hm. }
    destruct j as [|j'].
    + cbn [lookup list_lookup] in Hj. injection Hj as <-. reflexivity.
    + cbn [lookup list_lookup] in Hj.
      pose proof (checks_off rest m' Hoff) as Hall.
      rewrite List.Forall_forall in Hall. apply Hall.
      apply list_elem_of_In. apply (list_elem_of_lookup_2 _ j'). exact Hj.
  - destruct j as [|j']; [lia|].
    cbn [lookup list_lookup] in Hi, Hj.
    apply (IH m' i' j'); [lia | exact Hi | exact Hj].
Qed.

(** After a clip at the clock 1, polled at 100, 800, 200 and 900: the
    second answer is false, and so is the third, although its clock is
    within the lag again. *)
Lemma checkClipping_off_is_final_witness :
  default true
    (checks [100; 800; 200; 900]
       (volumeAudioProcess [0.5; 1; 0.25] of_length meter0) !! 2%nat)
  = false.
Proof.
  apply (checkClipping_off_is_final [100; 800; 200; 900]
           (volumeAudioProcess [0.5; 1; 0.25] of_length meter0) 1 2).
  - lia.
  - vm_compute. reflexivity.
  - vm_compute. reflexivity.
Defined.

(** NaN times any number is NaN, and [Math.max] of NaN is NaN. *)
Lemma nan_mul (v a : float) : is_nan v = true -> is_nan (v * a) = true.
Proof.
  rewrite !is_nan_spec, FloatAxioms.mul_spec.
  destruct (Prim2SF v); cbn; try discriminate. reflexivity.
Qed.

Lemma Math_max_nan_r (a b : float) : is_nan b = true -> Math_max a b = nan.
Proof. intros Hb. unfold Math_max. rewrite Hb, orb_true_r. reflexivity. Qed.

Lemma block_keeps_nan (buf : list float) (clk : nat -> float) (m : VolumeMeter) :
  is_nan (volume m) = true -> volume (volumeAudioProcess buf clk m) = nan.
Proof.
  intros Hv. rewrite Meter.volumeAudioProcess_volume.
  apply Math_max_nan_r, nan_mul, Hv.
Qed.

Lemma process_keeps_nan (bs : list (list float * (nat -> float))) :
  forall m : VolumeMeter,
    is_nan (volume m) = true -> is_nan (volume (process bs m)) = true.
Proof.
  induction bs as [|b rest IH]; intros m Hv; [exact Hv|].
  cbn [process fold_left]. apply IH.
  rewrite block_keeps_nan by exact Hv. reflexivity.
Qed.

(** X4: NaN is final.  Once the volume of the meter is NaN it is NaN after
    every block; so after an empty block, whatever came before it and
    whatever blocks follow, the volume is NaN. *)
Theorem NaN_volume_is_final (before after : list (list float * (nat -> float)))
    (clk : nat -> float) (m : VolumeMeter) :
  is_nan (volume (process (before ++ ([], clk) :: after) m)) = true.
Proof.
  unfold process. rewrite fold_left_app. cbn [fold_left fst snd].
  apply (process_keeps_nan after).
  rewrite Meter.empty_block_nan. reflexivity.
Qed.

(** Two numbers in order are numbers, and not in the other order. *)
Lemma ltb_numbers (a b : float) :
  (a <? b) = true -> is_nan a = false /\ is_nan b = false /\ (b <? a) = false.
Proof.
  rewrite !is_nan_spec, !FloatAxioms.ltb_spec. unfold SFltb.
  rewrite (SFcompare_antisym (Prim2SF a) (Prim2SF b)).
  destruct (SFcompare (Prim2SF a) (Prim2SF b)) as [[]|] eqn:Hc;
    intros Hlt; try discriminate Hlt.
  split; [|split; [|reflexivity]].
  - destruct (Prim2SF a); try reflexivity. discriminate Hc.
  - destruct (Prim2SF a); destruct (Prim2SF b); try reflexivity;
      discriminate Hc.
Qed.

(** X5: slow release.  A block whose root mean square is below
    [volume * averaging] makes the volume decay by exactly the averaging
    factor. *)
Theorem release_decays_by_averaging (buf : list float) (clk : nat -> float)
    (m : VolumeMeter) :
  lt (rms buf) (volume m * averaging m) = true ->
  volume (volumeAudioProcess buf clk m) = volume m * averaging m.
Proof.
  unfold lt. intros Hlt. rewrite Meter.volumeAudioProcess_volume.
  destruct (ltb_numbers _ _ Hlt) as [Ha [Hb _]].
  unfold Math_max. rewrite Ha, Hb, Hlt. reflexivity.
Qed.

(** A meter at the volume 1 and a block of root mean square 0.5. *)
Lemma release_decays_by_averaging_witness :
  let m := volumeAudioProcess [1] clock0 meter0 in
  volume (volumeAudioProcess [0.5; -0.5] clock0 m) = volume m * averaging m.
Proof.
  apply (release_decays_by_averaging [0.5; -0.5] clock0
           (volumeAudioProcess [1] clock0 meter0)).
  vm_compute. reflexivity.
Defined.

(** X6: fast attack.  A block whose root mean square is above
    [volume * averaging] sets the volume to its root mean square at once. *)
Theorem attack_is_immediate (buf : list float) (clk : nat -> float)
    (m : VolumeMeter) :
  lt (volume m * averaging m) (rms buf) = true ->
  volume (volumeAudioProcess buf clk m) = rms buf.
Proof.
  unfold lt. intros Hlt. rewrite Meter.volumeAudioProcess_volume.
  destruct (ltb_numbers _ _ Hlt) as [Hb [Ha Hnot]].
  unfold Math_max. rewrite Ha, Hb, Hnot, Hlt. reflexivity.
Qed.

(** A meter at the volume 0.5 and a block of root mean square 1. *)
Lemma attack_is_immediate_witness :
  let m := volumeAudioProcess [0.5] clock0 meter0 in
  volume (volumeAudioProcess [1; -1] clock0 m) = rms [1; -1].
Proof.
  apply (attack_is_immediate [1; -1] clock0
           (volumeAudioProcess [0.5] clock0 meter0)).
  vm_compute. reflexivity.
Defined.

(** A finite positive number, on [spec_float]. *)
Lemma positive_finite_spec (x : float) :
  positive_finite x = true -> SFpositive (Prim2SF x) = true.
Proof.
  unfold positive_finite, lt, is_finite.
  rewrite FloatAxioms.ltb_spec, is_nan_spec, Meter.is_infinity_spec.
  change (Prim2SF 0) with (S754_zero false).
  destruct (Prim2SF x) as [s|s| |s mx ex]; cbn; try discriminate;
    destruct s; cbn; try discriminate; reflexivity.
Qed.

Lemma SFmul_nonneg_positive (x y : spec_float) :
  SFnonneg x = true -> SFpositive y = true ->
  SFnonneg (SFmul prec emax x y) = true.
Proof.
  destruct x as [sx|sx| |sx mx ex]; destruct y as [sy|sy| |sy my ey]; cbn;
    intros Hx Hy; try discriminate; try reflexivity;
    destruct sx, sy; try discriminate; try reflexivity.
  apply SFsigned_nonneg. apply binary_round_aux_signed. lia.
Qed.

(** One block keeps the volume a number that is not negative. *)
Lemma block_keeps_nonneg (b : list float * (nat -> float)) (m : VolumeMeter) :
  SFpositive (Prim2SF (averaging m)) = true ->
  SFnonneg (Prim2SF (volume m)) = true ->
  audio_block b = true ->
  SFnonneg (Prim2SF (volume (volumeAudioProcess (fst b) (snd b) m))) = true.
Proof.
  intros Ha Hv Hb. unfold audio_block in Hb.
  apply andb_true_iff in Hb as [Hb Hnum]. apply andb_true_iff in Hb as [Hlen Hbound].
  apply negb_true_iff, Nat.eqb_neq in Hlen. apply Z.ltb_lt in Hbound.
  rewrite Meter.volumeAudioProcess_volume.
  pose proof (Meter.rms_nonneg (fst b) ltac:(lia) Hbound Hnum) as Hrms.
  assert (Hpa : SFnonneg (Prim2SF (volume m * averaging m)) = true).
  { rewrite FloatAxioms.mul_spec. apply SFmul_nonneg_positive; assumption. }
  destruct (Meter.Math_max_number _ _ (Meter.SFnonneg_number _ Hrms)
              (Meter.SFnonneg_number _ Hpa)) as [[-> | ->] _]; assumption.
Qed.

Lemma process_keeps_nonneg (bs : list (list float * (nat -> float))) :
  forall m : VolumeMeter,
    SFpositive (Prim2SF (averaging m)) = true ->
    SFnonneg (Prim2SF (volume m)) = true ->
    forallb audio_block bs = true ->
    SFnonneg (Prim2SF (volume (process bs m))) = true
    /\ averaging (process bs m) = averaging m.
Proof.
  induction bs as [|b rest IH]; intros m Ha Hv Hbs; [split; [exact Hv | reflexivity]|].
  cbn [forallb] in Hbs. apply andb_true_iff in Hbs as [Hb Hrest].
  cbn [process fold_left].
  destruct (block_clip (fst b) (snd b) m) as [_ [_ [_ [Havg _]]]].
  destruct (IH (volumeAudioProcess (fst b) (snd b) m)) as [Hn Heq].
  - rewrite Havg. exact Ha.
  - apply block_keeps_nonneg; assumption.
  - exact Hrest.
  - split; [exact Hn|]. unfold process in Heq. rewrite Heq. exact Havg.
Qed.

(** X7: with a finite positive averaging factor, such as the default one, a
    volume that is a number and not negative stays so through every
    sequence of blocks of the audio platform: blocks that are not empty and
    whose samples are numbers. *)
Theorem volume_stays_a_nonnegative_number
    (bs : list (list float * (nat -> float))) (m : VolumeMeter) :
  positive_finite (averaging m) = true ->
  le 0 (volume m) = true ->
  forallb audio_block bs = true ->
  le 0 (volume (process bs m)) = true
  /\ is_number (volume (process bs m)) = true.
Proof.
  unfold le. rewrite !leb_zero_spec. intros Ha Hv Hbs.
  destruct (process_keeps_nonneg bs m (positive_finite_spec _ Ha) Hv Hbs)
    as [Hn _].
  split; [exact Hn|].
  unfold is_number. rewrite (Meter.SFnonneg_number _ Hn). reflexivity.
Qed.

(** A new meter with the default parameters and three blocks. *)
Lemma volume_stays_a_nonnegative_number_witness :
  let bs := [([0.5; -0.5], clock0); ([1; 0.25; 0], clock0); ([0], clock0)] in
  le 0 (volume (process bs meter0)) = true
  /\ is_number (volume (process bs meter0)) = true.
Proof.
  apply (volume_stays_a_nonnegative_number
           [([0.5; -0.5], clock0); ([1; 0.25; 0], clock0); ([0], clock0)] meter0).
  - vm_compute. reflexivity.
  - vm_compute. reflexivity.
  - vm_compute. reflexivity.
Defined.

End MeterBehaviour.

(* ===================================================================== *)
(** * Behaviour of the detector *)
(* ===================================================================== *)

Module DetectorBehaviour.

Import JS IEEE FloatFacts Events AudioDetection Spec Behaviour Examples Facts.
Local Open Scope string_scope.

Section WithConstants.

Context {K : Constants} {H : Host}.

(** The heartbeat leaves the flags of the chain alone, and so does the
    callback. *)
Lemma timeout_callback_flags (w : World) (t : Tick) :
  let a' := this (exec (timeout_callback t) w) in
  stopRunning a' = stopRunning (this w)
  /\ recordingEnabled a' = recordingEnabled (this w).
Proof.
  cbv zeta. rewrite timeout_callback_exec.
  destruct (recordingEnabled (this w)) eqn:He.
  - unfold exec. rewrite decision_eq.
    destruct (band _);
      [rewrite mute_eq | rewrite signal_eq | rewrite silence_eq];
      cbn [fst snd this]; rewrite prerecording_eq; cbn [fst snd this];
      destruct w as [a m h]; destruct a; cbn in *;
      repeat case_if; split; first [reflexivity | exact He].
  - rewrite prerecording_exec. cbn [this]. split; [reflexivity | exact He].
Qed.

(** A property of the detector that the heartbeat and the classification
    keep holds after every run. *)
Lemma run_invariant (P : AudioDetection -> Prop) :
  (forall a c, P a -> P (set_prerecordingItems c a)) ->
  (forall w now, P (this w) -> P (this (exec (sampleThresholdsDecision now) w))) ->
  forall (ticks : list Tick) (w : World),
    P (this w) -> P (this (exec (run ticks) w)).
Proof.
  intros Hpre Hdec ticks. induction ticks as [|t rest IH]; intros w Hw;
    [exact Hw|].
  rewrite run_cons_exec.
  set (w1 := exec (onaudioprocess (blocks t)) w).
  assert (H1 : P (this w1)) by exact Hw.
  assert (H2 : P (this (exec (timeout_callback t) w1))).
  { rewrite timeout_callback_exec.
    assert (Hp : P (this (exec (prerecording (now_prerecording t)) w1))).
    { rewrite prerecording_exec. cbn [this]. apply Hpre. exact H1. }
    destruct (recordingEnabled (this w1)); [apply Hdec|]; exact Hp. }
  destruct (negb _); [apply IH|]; exact H2.
Qed.

(** A test that the events of the heartbeat and of the classification pass
    is passed by the events of every run. *)
Lemma run_forallb (P : Dispatched -> bool) :
  (forall w now, forallb P (dispatched (prerecording now) w) = true) ->
  (forall w now, forallb P (dispatched (sampleThresholdsDecision now) w) = true) ->
  forall (ticks : list Tick) (w : World),
    forallb P (dispatched (run ticks) w) = true.
Proof.
  intros Hpre Hdec ticks. induction ticks as [|t rest IH]; intros w;
    [reflexivity|].
  rewrite run_cons_dispatched, forallb_app.
  rewrite timeout_callback_dispatched, forallb_app, Hpre.
  destruct (recordingEnabled _); [rewrite Hdec|]; cbn [forallb andb];
    (destruct (negb _); [apply IH | reflexivity]).
Qed.

(** X8: the two counters of the classification never run together: after
    every run of a new detector, [silenceItems] or [signalItems] is 0. *)
Theorem one_counter_at_a_time (meter : VolumeMeter.VolumeMeter)
    (config : AudioDetectionConfig) (ticks : list Tick) :
  let a := this (exec (start ticks) (new_AudioDetection meter config)) in
  silenceItems a = 0%float \/ signalItems a = 0%float.
Proof.
  cbv zeta. unfold start. rewrite exec_bind.
  apply (run_invariant
           (fun a => silenceItems a = 0%float \/ signalItems a = 0%float)).
  - intros a c Ha. destruct a; exact Ha.
  - intros w now Hw. unfold exec. rewrite decision_eq.
    destruct (band w);
      [rewrite mute_eq | rewrite signal_eq | rewrite silence_eq];
      cbn [fst snd this]; destruct w as [a m h]; destruct a; cbn in *.
    + case_if; exact Hw.
    + left. repeat case_if; reflexivity.
    + right. unfold reaches_max. cbn. repeat case_if; reflexivity.
  - left. reflexivity.
Qed.

(** The state of the mic after a classification, and its transition. *)
Lemma decision_mic (w : World) (now : float) (rest : list string) :
  String.eqb (volumeState (this (exec (sampleThresholdsDecision now) w))) "mute"
  = is_mute (band w)
  /\ mic_alternates (String.eqb (volumeState (this w)) "mute")
       (map type (dispatched (sampleThresholdsDecision now) w) ++ rest)%list
     = mic_alternates (is_mute (band w)) rest.
Proof.
  split.
  - unfold exec. rewrite decision_eq.
    destruct (band w);
      [rewrite mute_eq | rewrite signal_eq | rewrite silence_eq];
      cbn [fst snd this is_mute]; destruct w as [a m h]; destruct a; cbn;
      unfold reaches_max; cbn;
      destruct (String.eqb volumeState0 "mute") eqn:Hv; cbn;
      repeat case_if; cbn; first [reflexivity | exact Hv].
  - rewrite decision_types. unfold opens, resolves, mic_transition.
    destruct (band w); cbn [is_signal is_silence is_mute andb sampling_event];
      destruct (String.eqb (volumeState (this w)) "mute");
      destruct (speechStarted (this w)); cbn; try reflexivity;
      case_if; cbn; try reflexivity;
      destruct (verdict_cases w (now - speechstartTime (this w))%float)
        as [-> | ->]; reflexivity.
Qed.

Lemma prerecording_mic (w : World) (now : float) (muted : bool)
    (rest : list string) :
  mic_alternates muted (map type (dispatched (prerecording now) w) ++ rest)%list
  = mic_alternates muted rest.
Proof.
  unfold dispatched. rewrite prerecording_eq. cbn [snd]. case_if; reflexivity.
Qed.

Lemma timeout_callback_mic (w : World) (t : Tick) (rest : list string) :
  mic_alternates (String.eqb (volumeState (this w)) "mute")
    (map type (dispatched (timeout_callback t) w) ++ rest)%list
  = mic_alternates
      (String.eqb (volumeState (this (exec (timeout_callback t) w))) "mute") rest.
Proof.
  rewrite timeout_callback_dispatched, timeout_callback_exec.
  rewrite map_app, <- app_assoc, prerecording_mic.
  destruct (recordingEnabled (this w)).
  - destruct (decision_mic (exec (prerecording (now_prerecording t)) w)
                (now_decision t) rest) as [Hs Ha].
    rewrite Hs, <- Ha. rewrite prerecording_exec. reflexivity.
  - rewrite prerecording_exec. reflexivity.
Qed.

Lemma run_mic (ticks : list Tick) (w : World) :
  mic_alternates (String.eqb (volumeState (this w)) "mute")
    (map type (dispatched (run ticks) w)) = true.
Proof.
  revert w. induction ticks as [|t rest IH]; intros w; [reflexivity|].
  rewrite run_cons_dispatched, map_app.
  change (volumeState (this w))
    with (volumeState (this (exec (onaudioprocess (blocks t)) w))).
  rewrite timeout_callback_mic.
  destruct (negb _); [apply IH | reflexivity].
Qed.

(** X9: [volumeState] tells whether the last classification was a mute:
    after a classification it is 'mute' exactly on a mute tick.  In every
    run, [unmutedmic] is dispatched only while the state is 'mute' and
    [mutedmic] only while it is not: the two alternate, and a new detector,
    whose state is 'mute', dispatches [unmutedmic] first. *)
Theorem mic_transitions_alternate (w : World) (now : float) (ticks : list Tick)
    (meter : VolumeMeter.VolumeMeter) (config : AudioDetectionConfig) :
  String.eqb (volumeState (this (exec (sampleThresholdsDecision now) w))) "mute"
  = is_mute (band w)
  /\ mic_alternates (String.eqb (volumeState (this w)) "mute")
       (map type (dispatched (run ticks) w)) = true
  /\ mic_alternates true
       (map type (dispatched (start ticks) (new_AudioDetection meter config)))
     = true.
Proof.
  split; [apply (decision_mic w now [])|]. split; [apply run_mic|].
  unfold start. rewrite dispatched_bind. cbn [app].
  apply (run_mic ticks
           (exec (set set_stopRunning false) (new_AudioDetection meter config))).
Qed.

(** X10: a detector that does not record runs the heartbeat only: the
    events of a run are [prespeechstart] events, and nothing of the
    detector changes but the counter of the heartbeat. *)
Theorem disabled_detector_only_beats (ticks : list Tick) (w : World) :
  recordingEnabled (this w) = false ->
  forallb (fun e => String.eqb (type e) "prespeechstart")
    (dispatched (run ticks) w) = true
  /\ exists count,
       this (exec (run ticks) w) = set_prerecordingItems count (this w).
Proof.
  revert w. induction ticks as [|t rest IH]; intros w He.
  - split; [reflexivity|]. exists (prerecordingItems (this w)).
    destruct w as [a m h]; destruct a; reflexivity.
  - rewrite run_cons_dispatched, run_cons_exec.
    set (w1 := exec (onaudioprocess (blocks t)) w).
    assert (He1 : recordingEnabled (this w1) = false) by exact He.
    assert (Ht : this (exec (timeout_callback t) w1)
                 = set_prerecordingItems
                     (prerecordingItems (this (exec (timeout_callback t) w1)))
                     (this w)).
    { rewrite timeout_callback_exec, He1, prerecording_exec. reflexivity. }
    assert (Hev : forallb (fun e => String.eqb (type e) "prespeechstart")
                    (dispatched (timeout_callback t) w1) = true).
    { rewrite timeout_callback_dispatched, He1, app_nil_r.
      unfold dispatched. rewrite prerecording_eq. cbn [snd].
      case_if; reflexivity. }
    rewrite forallb_app, Hev. cbn [andb].
    destruct (negb _).
    + destruct (IH (exec (timeout_callback t) w1)) as [Hall [count Hc]].
      { rewrite Ht. exact He. }
      split; [exact Hall|]. exists count. rewrite Hc, Ht.
      destruct (this w); reflexivity.
    + split; [reflexivity|]. eexists. exact Ht.
Qed.


(** X11: stopping is cooperative.  After [stop()], the firing that is
    pending still runs, with its events, and nothing runs after it: the
    events of the chain are those of its first callback, whatever ticks
    would follow, and [stopRunning] stays set. *)
Theorem stop_lets_one_tick_run (t : Tick) (rest : list Tick) (w : World) :
  let stopped := exec stop w in
  let w1 := exec (onaudioprocess (blocks t)) stopped in
  dispatched (bind stop (fun _ => run (t :: rest))) w
  = dispatched (timeout_callback t) w1
  /\ exec (bind stop (fun _ => run (t :: rest))) w
     = exec (timeout_callback t) w1
  /\ stopRunning (this (exec (bind stop (fun _ => run (t :: rest))) w)) = true.
Proof.
  cbv zeta. rewrite dispatched_bind, exec_bind. cbn [app].
  change (dispatched stop w) with (@nil Dispatched). cbn [app].
  rewrite run_cons_dispatched, run_cons_exec.
  destruct (timeout_callback_flags (exec (onaudioprocess (blocks t)) (exec stop w)) t)
    as [Hs _].
  rewrite Hs. cbn [negb]. change (stopRunning (this (exec (onaudioprocess (blocks t)) (exec stop w)))) with true.
  cbn [negb]. rewrite app_nil_r. repeat split.
  rewrite Hs. reflexivity.
Qed.

(** A chain that is not stopped runs every tick. *)
Lemma per_tick_length (ticks : list Tick) :
  forall w : World,
    stopRunning (this w) = false ->
    length (per_tick ticks w) = length ticks
    /\ stopRunning (this (exec (run ticks) w)) = false.
Proof.
  induction ticks as [|t rest IH]; intros w Hs; [split; [reflexivity | exact Hs]|].
  cbn [per_tick length]. rewrite run_cons_exec.
  destruct (timeout_callback_flags (exec (onaudioprocess (blocks t)) w) t)
    as [Hs' _].
  change (stopRunning (this (exec (onaudioprocess (blocks t)) w)))
    with (stopRunning (this w)) in Hs'.
  rewrite Hs' , Hs. cbn [negb].
  destruct (IH (exec (timeout_callback t) (exec (onaudioprocess (blocks t)) w)))
    as [Hl Hr]; [rewrite Hs'; exact Hs|].
  rewrite Hl. split; [reflexivity | exact Hr].
Qed.

(** X12: [start()] clears [stopRunning], also after a [stop()], and
    nothing in a tick sets it: the chain that it starts runs every tick,
    and its events are those of the ticks, in order. *)
Theorem start_runs_every_tick (ticks : list Tick) (w : World) :
  let w' := exec (set set_stopRunning false) w in
  dispatched (start ticks) w = concat (per_tick ticks w')
  /\ length (per_tick ticks w') = length ticks
  /\ stopRunning (this (exec (start ticks) w)) = false.
Proof.
  cbv zeta. unfold start. rewrite dispatched_bind, exec_bind. cbn [app].
  change (dispatched (set set_stopRunning false) w) with (@nil Dispatched).
  cbn [app]. rewrite run_per_tick.
  destruct (per_tick_length ticks (exec (set set_stopRunning false) w))
    as [Hl Hr]; [reflexivity|].
  repeat split; assumption.
Qed.

(** What a classification does to the store, and where its events point. *)
Lemma decision_store (w : World) (now : float) :
  (exists d, heap (exec (sampleThresholdsDecision now) w) = (heap w ++ [d])%list)
  /\ Forall (fun e => detail e = length (heap w))
       (dispatched (sampleThresholdsDecision now) w)
  /\ meter (exec (sampleThresholdsDecision now) w) = meter w.
Proof.
  unfold exec, dispatched. rewrite decision_eq.
  destruct (band w);
    [rewrite mute_eq | rewrite signal_eq | rewrite silence_eq];
    cbn [fst snd heap meter].
  - split; [eexists; reflexivity|]. split; [|reflexivity].
    case_if; repeat apply List.Forall_cons; try apply List.Forall_nil;
      reflexivity.
  - split; [eexists; reflexivity|]. split; [|reflexivity].
    destruct (speechStarted (this w)); case_if; cbn [app];
      repeat apply List.Forall_cons; try apply List.Forall_nil; reflexivity.
  - split; [eexists; reflexivity|]. split; [|reflexivity].
    destruct (reaches_max w); case_if; cbn [app];
      repeat apply List.Forall_cons; try apply List.Forall_nil; reflexivity.
Qed.

Lemma timeout_callback_store (w : World) (t : Tick) :
  let w' := exec (timeout_callback t) w in
  (exists new, heap w' = (heap w ++ new)%list
               /\ length new = if recordingEnabled (this w) then 2 else 1)
  /\ Forall (fun e => length (heap w) <= detail e < length (heap w'))
       (dispatched (timeout_callback t) w)
  /\ meter w' = meter w.
Proof.
  cbv zeta. rewrite timeout_callback_exec, timeout_callback_dispatched.
  set (wp := exec (prerecording (now_prerecording t)) w).
  assert (Hp : heap wp = (heap w ++ [prespeechstart_detail w (now_prerecording t)])%list)
    by (unfold wp; rewrite prerecording_exec; reflexivity).
  assert (Hm : meter wp = meter w)
    by (unfold wp; rewrite prerecording_exec; reflexivity).
  assert (Hev : Forall (fun e => detail e = length (heap w))
                  (dispatched (prerecording (now_prerecording t)) w)).
  { unfold dispatched. rewrite prerecording_eq. cbn [snd].
    case_if; repeat apply List.Forall_cons; try apply List.Forall_nil;
      reflexivity. }
  destruct (recordingEnabled (this w)).
  - destruct (decision_store wp (now_decision t)) as [[d Hd] [Hdet Hmd]].
    rewrite Hd, Hp, Hmd, <- app_assoc. cbn [app].
    split; [eexists; split; reflexivity|]. split; [|exact Hm].
    apply Forall_app. split.
    + eapply List.Forall_impl; [|exact Hev]. cbn. intros e ->.
      rewrite length_app. cbn. lia.
    + eapply List.Forall_impl; [|exact Hdet]. cbn. intros e ->.
      rewrite Hp, !length_app. cbn. lia.
  - rewrite Hp. split; [eexists; split; reflexivity|]. split; [|exact Hm].
    rewrite app_nil_r.
    eapply List.Forall_impl; [|exact Hev]. cbn. intros e ->.
    rewrite length_app. cbn. lia.
Qed.

Lemma run_store (ticks : list Tick) :
  forall w : World,
    exists later, heap (exec (run ticks) w) = (heap w ++ later)%list.
Proof.
  induction ticks as [|t rest IH]; intros w.
  - exists []. rewrite app_nil_r. reflexivity.
  - rewrite run_cons_exec.
    destruct (timeout_callback_store (exec (onaudioprocess (blocks t)) w) t)
      as [[new [Hn _]] _].
    change (heap (exec (onaudioprocess (blocks t)) w)) with (heap w) in Hn.
    destruct (negb _).
    + destruct (IH (exec (timeout_callback t) (exec (onaudioprocess (blocks t)) w)))
        as [later Hl].
      exists (new ++ later)%list. rewrite Hl, Hn, app_assoc. reflexivity.
    + exists new. exact Hn.
Qed.

(** X13: the store only grows.  A tick adds one object, the payload of the
    heartbeat, and a second one if the detector records, the payload of the
    classification; its events carry these new objects and no older one;
    and a run leaves every object that was in the store as it was: the
    payload of an event is not modified once its tick is over. *)
Theorem store_only_grows (w : World) (t : Tick) (ticks : list Tick) :
  let w' := exec (timeout_callback t) w in
  (exists new, heap w' = (heap w ++ new)%list
               /\ length new = if recordingEnabled (this w) then 2 else 1)
  /\ Forall (fun e => length (heap w) <= detail e < length (heap w'))
       (dispatched (timeout_callback t) w)
  /\ exists later, heap (exec (run ticks) w) = (heap w ++ later)%list.
Proof.
  cbv zeta. destruct (timeout_callback_store w t) as [Hn [Hev _]].
  split; [exact Hn|]. split; [exact Hev|]. apply run_store.
Qed.


(** X14: an event has an abort message exactly when it is a
    [speechabort]: in every run, [speechabort] carries one, and no other
    event does; [silence] and [speechstop] are dispatched without it. *)
Theorem abort_message_iff_speechabort (ticks : list Tick) (w : World) :
  forallb abort_consistent (dispatched (run ticks) w) = true.
Proof.
  apply run_forallb; clear ticks w; intros w now.
  - unfold dispatched. rewrite prerecording_eq. cbn [snd].
    case_if; reflexivity.
  - unfold dispatched. rewrite decision_eq.
    destruct (band w);
      [rewrite mute_eq | rewrite signal_eq | rewrite silence_eq]; cbn [snd].
    + case_if; reflexivity.
    + destruct (speechStarted (this w)); case_if; reflexivity.
    + unfold verdict.
      destruct (reaches_max w); case_if; cbn; try reflexivity;
        repeat case_if; reflexivity.
Qed.

(** The start of the segment after a classification. *)
Lemma decision_speechstart (w : World) (now : float) :
  speechstartTime (this (exec (sampleThresholdsDecision now) w))
  = last_speechstart (speechstartTime (this w))
      (dispatched (sampleThresholdsDecision now) w).
Proof.
  unfold exec, dispatched, last_speechstart. rewrite decision_eq.
  destruct (band w);
    [rewrite mute_eq | rewrite signal_eq | rewrite silence_eq];
    cbn [fst snd this]; destruct w as [a m h]; destruct a; cbn.
  - case_if; reflexivity.
  - destruct speechStarted0; case_if; reflexivity.
  - unfold reaches_max. cbn.
    destruct speechStarted0; cbn; repeat case_if; cbn; try reflexivity;
      match goal with
      | |- context [verdict ?w ?d] =>
          destruct (verdict_cases w d) as [-> | ->]; reflexivity
      end.
Qed.

Lemma timeout_callback_speechstart (w : World) (t : Tick) :
  speechstartTime (this (exec (timeout_callback t) w))
  = last_speechstart (speechstartTime (this w))
      (dispatched (timeout_callback t) w).
Proof.
  rewrite timeout_callback_exec, timeout_callback_dispatched.
  unfold last_speechstart at 1. rewrite fold_left_app.
  assert (Hp : fold_left
                 (fun t0 e => if String.eqb (type e) "speechstart"
                              then timestamp (payload e) else t0)
                 (dispatched (prerecording (now_prerecording t)) w)
                 (speechstartTime (this w))
               = speechstartTime (this w)).
  { unfold dispatched. rewrite prerecording_eq. cbn [snd]. case_if; reflexivity. }
  rewrite Hp.
  destruct (recordingEnabled (this w)).
  - rewrite decision_speechstart. rewrite prerecording_exec. reflexivity.
  - rewrite prerecording_exec. reflexivity.
Qed.

(** X15: [speechstartTime] is the timestamp of the last [speechstart]:
    after every run it is the timestamp that the payload of the last
    [speechstart] of the run carries, and what it was before the run if the
    run has dispatched none. *)
Theorem speechstartTime_is_last_speechstart (ticks : list Tick) (w : World) :
  speechstartTime (this (exec (run ticks) w))
  = last_speechstart (speechstartTime (this w)) (dispatched (run ticks) w).
Proof.
  revert w. induction ticks as [|t rest IH]; intros w; [reflexivity|].
  rewrite run_cons_exec, run_cons_dispatched.
  unfold last_speechstart. rewrite fold_left_app.
  fold (last_speechstart (speechstartTime (this w))
          (dispatched (timeout_callback t) (exec (onaudioprocess (blocks t)) w))).
  change (speechstartTime (this w))
    with (speechstartTime (this (exec (onaudioprocess (blocks t)) w))).
  rewrite <- timeout_callback_speechstart.
  destruct (negb _); [apply IH | reflexivity].
Qed.

(** A volume that is NaN is neither below [muteVolume] nor above
    [speakingMinVolume]. *)
Lemma band_nan (w : World) :
  is_nan (VolumeMeter.volume (meter w)) = true -> band w = SilenceBand.
Proof.
  rewrite is_nan_spec. unfold band, lt, gt.
  rewrite !FloatAxioms.ltb_spec. unfold SFltb.
  destruct (Prim2SF (VolumeMeter.volume (meter w))); try discriminate.
  intros _. cbn.
  destruct (Prim2SF (speakingMinVolume (this w))); reflexivity.
Qed.

Lemma timeout_callback_deaf (w : World) (t : Tick) :
  is_nan (VolumeMeter.volume (meter w)) = true ->
  forallb (fun e => negb (needs_a_volume (type e)))
    (dispatched (timeout_callback t) w) = true.
Proof.
  intros Hn.
  transitivity (forallb (fun ty => negb (needs_a_volume ty))
                  (map type (dispatched (timeout_callback t) w))).
  { induction (dispatched (timeout_callback t) w) as [|e l IH];
      [reflexivity|]. cbn [map forallb]. rewrite IH. reflexivity. }
  rewrite Classifier.timeout_callback_types.
  unfold opens, resolves, mic_transition. rewrite (band_nan w Hn).
  cbn [is_signal is_silence andb sampling_event app].
  destruct (period_reached _ _ && _); destruct (recordingEnabled (this w));
    try reflexivity;
    destruct (String.eqb (volumeState (this w)) "mute");
    destruct (reaches_max w); cbn; try reflexivity;
    destruct (verdict_cases w (now_decision t - speechstartTime (this w))%float)
      as [-> | ->]; reflexivity.
Qed.

(** X16: a detector whose meter reads NaN hears silence.  NaN is in the
    silence band whatever the thresholds are, and it stays in the meter
    through every block: in every run from then on the detector dispatches
    no [signal], no [mute], no [mutedmic], and opens no segment. *)
Theorem NaN_volume_is_silence (ticks : list Tick) (w : World) :
  is_nan (VolumeMeter.volume (meter w)) = true ->
  band w = SilenceBand
  /\ forallb (fun e => negb (needs_a_volume (type e)))
       (dispatched (run ticks) w) = true.
Proof.
  intros Hn. split; [apply band_nan; exact Hn|].
  revert w Hn. induction ticks as [|t rest IH]; intros w Hn; [reflexivity|].
  rewrite run_cons_dispatched, forallb_app.
  set (w1 := exec (onaudioprocess (blocks t)) w).
  assert (H1 : is_nan (VolumeMeter.volume (meter w1)) = true)
    by (apply (MeterBehaviour.process_keeps_nan (blocks t) (meter w)); exact Hn).
  rewrite (timeout_callback_deaf w1 t H1). cbn [andb].
  destruct (negb _); [|reflexivity].
  apply IH.
  destruct (timeout_callback_store w1 t) as [_ [_ ->]]. exact H1.
Qed.

(** What a mute tick leaves alone. *)
Lemma mute_tick_segment (w : World) (t : Tick) :
  band w = MuteBand ->
  segment_state (this (exec (timeout_callback t) w)) = segment_state (this w)
  /\ forallb (fun e => negb (is_resolution (type e)))
       (dispatched (timeout_callback t) w) = true.
Proof.
  intros Hb. split.
  - rewrite timeout_callback_exec.
    destruct (recordingEnabled (this w)).
    + unfold exec. rewrite decision_eq.
      replace (band (snd (fst (prerecording (now_prerecording t) w))))
        with MuteBand
        by (rewrite <- Hb; change (snd (fst (prerecording (now_prerecording t) w)))
              with (exec (prerecording (now_prerecording t)) w);
            rewrite prerecording_exec; reflexivity).
      rewrite mute_eq. cbn [fst snd this]. rewrite prerecording_eq.
      cbn [fst snd this]. destruct w as [a m h]; destruct a; cbn.
      repeat case_if; reflexivity.
    + rewrite prerecording_exec. destruct w as [a m h]; destruct a; reflexivity.
  - transitivity (forallb (fun ty => negb (is_resolution ty))
                    (map type (dispatched (timeout_callback t) w))).
    { induction (dispatched (timeout_callback t) w) as [|e l IH];
        [reflexivity|]. cbn [map forallb]. rewrite IH. reflexivity. }
    rewrite Classifier.timeout_callback_types.
    unfold opens, resolves, mic_transition. rewrite Hb.
    cbn [is_signal is_silence andb sampling_event app].
    destruct (period_reached _ _ && _); destruct (recordingEnabled (this w));
      try reflexivity; case_if; reflexivity.
Qed.

(** X17: muting the microphone neither ends a segment nor changes it.
    Through a run in which every tick reads a volume below [muteVolume],
    however long, [speechStarted], the two counters, [speechstartTime] and
    the volumes of the segment stay as they were, and no [speechstart],
    [speechstop] or [speechabort] is dispatched. *)
Theorem muted_ticks_keep_the_segment (ticks : list Tick) (w : World) :
  Forall (fun w1 => band w1 = MuteBand) (firings ticks w) ->
  segment_state (this (exec (run ticks) w)) = segment_state (this w)
  /\ forallb (fun e => negb (is_resolution (type e)))
       (dispatched (run ticks) w) = true.
Proof.
  revert w. induction ticks as [|t rest IH]; intros w Hall;
    [split; reflexivity|].
  cbn [firings] in Hall. apply List.Forall_cons_iff in Hall as [Hb Hrest].
  rewrite run_cons_exec, run_cons_dispatched, forallb_app.
  destruct (mute_tick_segment _ t Hb) as [Hs Hev].
  rewrite Hev. cbn [andb].
  change (this (exec (onaudioprocess (blocks t)) w)) with (this w) in Hs.
  destruct (negb _).
  - destruct (IH _ Hrest) as [Hs' Hev']. rewrite Hs', Hs.
    split; [reflexivity | exact Hev'].
  - rewrite Hs. split; reflexivity.
Qed.


(** The volumes that the callbacks of a run read, when the blocks are
    those of the audio platform. *)
Lemma firings_nonneg (ticks : list Tick) :
  forall w : World,
    SFpositive (Prim2SF (VolumeMeter.averaging (meter w))) = true ->
    SFnonneg (Prim2SF (VolumeMeter.volume (meter w))) = true ->
    platform_ticks ticks = true ->
    Forall (fun w1 => SFnonneg (Prim2SF (VolumeMeter.volume (meter w1))) = true)
      (firings ticks w).
Proof.
  induction ticks as [|t rest IH]; intros w Ha Hv Hbs; [constructor|].
  unfold platform_ticks in Hbs. cbn [forallb] in Hbs.
  apply andb_true_iff in Hbs as [Hb Hrest].
  cbn [firings].
  set (w1 := exec (onaudioprocess (blocks t)) w).
  destruct (MeterBehaviour.process_keeps_nonneg (blocks t) (meter w) Ha Hv Hb)
    as [Hn Havg].
  change (process (blocks t) (meter w)) with (meter w1) in Hn, Havg.
  apply List.Forall_cons; [exact Hn|].
  destruct (negb _); [|constructor].
  destruct (timeout_callback_store w1 t) as [_ [_ Hm]]. cbv zeta in Hm.
  apply IH; [rewrite Hm, Havg; exact Ha | rewrite Hm; exact Hn | exact Hrest].
Qed.

(** X18: the detector that [connectAudioDetection] returns never reads
    NaN from its meter: whatever the constants are, in every run whose
    audio blocks are those of the platform (not empty, samples that are
    numbers), the volume that each tick classifies is a number that is not
    negative. *)
Theorem connected_detector_reads_numbers (ticks : list Tick) :
  platform_ticks ticks = true ->
  Forall (fun w1 => le 0 (VolumeMeter.volume (meter w1)) = true
                    /\ is_number (VolumeMeter.volume (meter w1)) = true)
    (firings ticks ConnectAudioDetection.connectAudioDetection).
Proof.
  intros Hbs.
  eapply List.Forall_impl;
    [|apply (firings_nonneg ticks ConnectAudioDetection.connectAudioDetection);
      [vm_compute; reflexivity | vm_compute; reflexivity | exact Hbs]].
  intros w1 Hn. cbv beta in Hn. unfold le, is_number.
  rewrite leb_zero_spec, (Meter.SFnonneg_number _ Hn). split; [exact Hn | reflexivity].
Qed.

End WithConstants.

(** The detector that does not record, through thirteen ticks. *)
Lemma disabled_detector_only_beats_witness :
  recordingEnabled (this w_disabled) = false
  /\ forallb (fun e => String.eqb (type e) "prespeechstart")
       (dispatched (run (K := K0) (H := H0) thirteen_silent_ticks) w_disabled)
     = true
  /\ exists count,
       this (exec (run (K := K0) (H := H0) thirteen_silent_ticks) w_disabled)
       = set_prerecordingItems count (this w_disabled).
Proof.
  split; [reflexivity|].
  apply (disabled_detector_only_beats (K := K0) (H := H0)
           thirteen_silent_ticks w_disabled).
  reflexivity.
Defined.

(** The detector whose meter has processed an empty block, through five
    ticks of signal and eleven of silence. *)
Lemma NaN_volume_is_silence_witness :
  is_nan (VolumeMeter.volume (meter w_deaf)) = true
  /\ band w_deaf = SilenceBand
  /\ forallb (fun e => negb (needs_a_volume (type e)))
       (dispatched (run (K := K0) (H := H0) speech_then_silence) w_deaf) = true.
Proof.
  split; [vm_compute; reflexivity|].
  apply (NaN_volume_is_silence (K := K0) (H := H0) speech_then_silence w_deaf).
  vm_compute. reflexivity.
Defined.

(** The detector in the middle of a speech, through five mute ticks. *)
Lemma muted_ticks_keep_the_segment_witness :
  speechStarted (this w_speaking) = true
  /\ segment_state
       (this (exec (run (K := K0) (H := H0) five_mute_ticks) w_speaking))
     = segment_state (this w_speaking)
  /\ forallb (fun e => negb (is_resolution (type e)))
       (dispatched (run (K := K0) (H := H0) five_mute_ticks) w_speaking) = true.
Proof.
  split; [vm_compute; reflexivity|].
  apply (muted_ticks_keep_the_segment (K := K0) (H := H0)
           five_mute_ticks w_speaking).
  vm_compute. repeat constructor.
Defined.

(** The connected detector through two ticks of signal. *)
Lemma connected_detector_reads_numbers_witness :
  Forall (fun w1 => le 0 (VolumeMeter.volume (meter w1)) = true
                    /\ is_number (VolumeMeter.volume (meter w1)) = true)
    (firings (K := K0) (H := H0) [tick_at 0.5 1000; tick_at 0.5 1100]
       (ConnectAudioDetection.connectAudioDetection (K := K0))).
Proof.
  apply (connected_detector_reads_numbers (K := K0) (H := H0)
           [tick_at 0.5 1000; tick_at 0.5 1100]).
  vm_compute. reflexivity.
Defined.

End DetectorBehaviour.
